(** * system-installer: the automatic partitioner

    A shallow embedding of [usr/share/system-installer/auto_partitioner.py].

    The Python module talks to pyparted (the block device and its partition
    table), [subprocess] (the mkfs tools), [os.path] and [psutil].  Their
    answers are gathered in a record [World]; what the module asks them
    to do is logged, in order, as a list of [event]s.  Functions that may
    raise live in the monad [M], a state monad over the log whose results are
    either a value or a Python exception. *)

From Stdlib Require Import ZArith String Ascii List Bool Lia.
From Stdlib Require Import Floats.
From Stdlib Require Import Decimal DecimalFacts DecimalNat DecimalString.
From stdpp Require Import base option gmap strings list sorting.

#[local] Set Warnings "-inexact-float".

Local Open Scope string_scope.
Local Open Scope list_scope.
Local Open Scope Z_scope.

(** ** Python strings *)

Module PyStr.

(** [c.lower()] on one ASCII character. *)
Definition lower_ascii (c : ascii) : ascii :=
  let n := nat_of_ascii c in
  if ((65 <=? n) && (n <=? 90))%nat then ascii_of_nat (n + 32) else c.

(** [s.lower()], for ASCII text. *)
Fixpoint lower (s : string) : string :=
  match s with
  | EmptyString => EmptyString
  | String c s' => String (lower_ascii c) (lower s')
  end.

(** [needle in hay]: substring test. *)
Fixpoint contains (needle hay : string) : bool :=
  String.prefix needle hay ||
  match hay with
  | EmptyString => false
  | String _ hay' => contains needle hay'
  end.

(** [s[:n]] for [n >= 0]. *)
Fixpoint take (n : nat) (s : string) : string :=
  match n, s with
  | S n', String c s' => String c (take n' s')
  | _, _ => EmptyString
  end.

(** [s[n:]] for [n >= 0]. *)
Fixpoint drop (n : nat) (s : string) : string :=
  match n, s with
  | S n', String _ s' => drop n' s'
  | _, _ => s
  end.

(** [s[:-n]] for [n > 0]: everything but the last [n] characters. *)
Definition drop_last (n : nat) (s : string) : string :=
  take (String.length s - n) s.

(** [s[-1]]: the last character, if any. *)
Fixpoint last (s : string) : option ascii :=
  match s with
  | EmptyString => None
  | String c EmptyString => Some c
  | String _ s' => last s'
  end.

Definition digit (c : ascii) : option Z :=
  let n := nat_of_ascii c in
  if ((48 <=? n) && (n <=? 57))%nat then Some (Z.of_nat n - 48) else None.

(** The ASCII characters [int] and [strip] take for blanks: tab to carriage
    return, the four separators and the space. *)
Definition is_space (c : ascii) : bool :=
  let n := nat_of_ascii c in
  (((9 <=? n) && (n <=? 13)) || ((28 <=? n) && (n <=? 32)))%nat.

Fixpoint lstrip (s : string) : string :=
  match s with
  | String c s' => if is_space c then lstrip s' else s
  | EmptyString => EmptyString
  end.

Fixpoint rstrip (s : string) : string :=
  match s with
  | EmptyString => EmptyString
  | String c s' =>
      match rstrip s' with
      | EmptyString => if is_space c then EmptyString else String c EmptyString
      | r => String c r
      end
  end.

(** [s.strip()], for ASCII text. *)
Definition strip (s : string) : string := lstrip (rstrip s).

(** What follows the first digit of a numeral, read left to right with the
    value so far: digits, each of which a single underscore may precede. *)
Fixpoint digits (acc : Z) (s : string) : option Z :=
  match s with
  | EmptyString => Some acc
  | String c s' =>
      match digit c with
      | Some d => digits (10 * acc + d) s'
      | None =>
          if Ascii.eqb c "_" then
            match s' with
            | String c' s'' =>
                match digit c' with
                | Some d => digits (10 * acc + d) s''
                | None => None
                end
            | EmptyString => None
            end
          else None
      end
  end.

(** A numeral without sign: it starts with a digit. *)
Definition numeral (s : string) : option Z :=
  match s with
  | String c s' =>
      match digit c with
      | Some d => digits d s'
      | None => None
      end
  | EmptyString => None
  end.

(** [int(s)] in base ten, for ASCII text: blanks around an optional sign
    and a numeral whose digits single underscores may separate.  [None]
    stands for the [ValueError] Python raises. *)
Definition int (s : string) : option Z :=
  match strip s with
  | String "-" r => Z.opp <$> numeral r
  | String "+" r => numeral r
  | r => numeral r
  end.

End PyStr.

(** ** Python numbers

    An [int] is a [Z]; a [float] is an IEEE 754 binary64 value, the kernel's
    primitive [float], whose [+], [*] and [/] round as CPython's do. *)

Module PyNum.

Inductive num :=
| NInt (z : Z)
| NFloat (f : float).

(** [float(z)]; exact for [|z| < 2^53], which covers every device below
    nine petabytes. *)
Definition of_Z (z : Z) : float :=
  match z with
  | Z0 => PrimFloat.zero
  | Zpos _ => PrimFloat.of_uint63 (Uint63.of_Z z)
  | Zneg p => PrimFloat.opp (PrimFloat.of_uint63 (Uint63.of_Z (Zpos p)))
  end.

(** [a / b] on two ints (true division). *)
Definition truediv (a b : Z) : float := PrimFloat.div (of_Z a) (of_Z b).

(** [int(f)]: truncation toward zero; [None] for infinities and NaN, where
    Python raises. *)
Definition trunc (f : float) : option Z :=
  match Prim2SF f with
  | S754_zero _ => Some 0
  | S754_finite s m e =>
      let a := if (0 <=? e) then Z.pos m * 2 ^ e else Z.pos m / 2 ^ (- e) in
      Some (if s then - a else a)
  | _ => None
  end.

(** [round(f)] with one argument: to the nearest int, ties to even. *)
Definition round (f : float) : option Z :=
  match Prim2SF f with
  | S754_zero _ => Some 0
  | S754_finite s m e =>
      let a :=
        if (0 <=? e) then Z.pos m * 2 ^ e
        else
          let d := 2 ^ (- e) in
          let q := Z.pos m / d in
          let r := Z.pos m mod d in
          match Z.compare (2 * r) d with
          | Lt => q
          | Gt => q + 1
          | Eq => if Z.even q then q else q + 1
          end in
      Some (if s then - a else a)
  | _ => None
  end.

(** Exact comparison of a float with an int, as Python compares them. *)
Definition cmp_float_Z (f : float) (z : Z) : option comparison :=
  match Prim2SF f with
  | S754_zero _ => Some (Z.compare 0 z)
  | S754_finite s m e =>
      let v := if s then Z.neg m else Z.pos m in
      Some (if (0 <=? e) then Z.compare (v * 2 ^ e) z
            else Z.compare v (z * 2 ^ (- e)))
  | S754_infinity s => Some (if s then Lt else Gt)
  | S754_nan => None
  end.

(** [f <= z] and [f >= z]; a NaN compares false. *)
Definition float_le_Z (f : float) (z : Z) : bool :=
  match cmp_float_Z f z with
  | Some Lt | Some Eq => true
  | _ => false
  end.

Definition float_ge_Z (f : float) (z : Z) : bool :=
  match cmp_float_Z f z with
  | Some Gt | Some Eq => true
  | _ => false
  end.

End PyNum.
Export PyNum.

(** ** Exceptions, results and the event log *)

(** The exception classes the module can let escape.  [FileNotFoundError]
    is the one the module raises itself; [OSError] stands for what
    [subprocess] raises when a command cannot be run, whatever its subclass
    (a missing command included). *)
Inductive exn :=
| ValueError
| FileNotFoundError
| AttributeError
| TypeError
| IndexError
| OverflowError
| OSError.

Inductive outcome (A : Type) :=
| Ret (a : A)
| Raise (e : exn).
Arguments Ret {A} a.
Arguments Raise {A} e.

(** What the module asks of the outside world, in the order asked. *)
Inductive event :=
| Clobber (device : string)
    (** [clobber_disk]: wipe the device, commit a fresh GPT label *)
| MakeEfi (start end_ : num)
    (** [__make_efi__]: add a boot-flagged partition, commit, mkfs.fat *)
| MakeRoot (start end_ : num) (fs : string)
    (** [__make_root__] (and [__make_home__]): add a partition, commit, mkfs *)
| RootBoot
    (** [__make_root_boot__]: boot flag on the first primary partition *)
| CheckCall (command : list string).
    (** [subprocess.check_call(command)] *)

Definition trace := list event.

Definition M (A : Type) : Type := trace → outcome A * trace.

Definition ret {A} (a : A) : M A := λ t, (Ret a, t).
Definition raise {A} (e : exn) : M A := λ t, (Raise e, t).
Definition bind {A B} (m : M A) (k : A → M B) : M B :=
  λ t, match m t with
       | (Ret a, t') => k a t'
       | (Raise e, t') => (Raise e, t')
       end.
Definition emit (e : event) : M unit := λ t, (Ret tt, t ++ [e]).
Definition history : M trace := λ t, (Ret t, t).
Definition run {A} (m : M A) : outcome A * trace := m [].

Notation "x <~ m ;; k" := (bind m (λ x, k))
  (at level 100, m at next level, right associativity).
Notation "m ;;; k" := (bind m (λ _, k))
  (at level 100, right associativity).

(** How [subprocess.check_call] ends: the command exits with status 0; it
    exits with another status, which is [CalledProcessError]; or it cannot
    be run at all, which is an [OSError]. *)
Inductive call :=
| Succeeds
| Fails
| NotRun.

(** The exception of [int(f)] and [round(f)] on a float without an integer
    value: [ValueError] for a NaN, [OverflowError] for an infinity. *)
Definition float_error (f : float) : exn :=
  if PrimFloat.is_nan f then ValueError else OverflowError.

(** A value of the kind [raid_array["raid_type"]] takes: [None], a string
    such as ["RAID1"] or ["OEM"], or (after conversion) an int. *)
Inductive pyval :=
| PNone
| PStr (s : string)
| PInt (z : Z).

(** ** The outside world *)

(** A [parted.Geometry]: start, length and end in sectors. *)
Record Geometry := {
  g_start : Z;
  g_length : Z;
  g_end : Z;
}.

(** A partition boundary as configured or passed: a number of megabytes, or
    a string such as ["40%"]. *)
Inductive bound :=
| BNum (n : num)
| BStr (s : string).

(** The [config] dictionary once the settings file has been merged in. *)
Record Config := {
  ROOT_START : bound;
  ROOT_END : bound;
  ROOT_fs : string;
  HOME_START : bound;
  HOME_END : bound;
  HOME_fs : string;
  EFI_START : num;
  EFI_END : num;
  min_root_size : Z;
  mdswh : Z;
}.

(** The built-in defaults (lines 49-53). *)
Definition default_config : Config := {|
  ROOT_START := BNum (NInt 201);
  ROOT_END := BStr "40%";
  ROOT_fs := "ext4";
  HOME_START := BStr "40%";
  HOME_END := BStr "100%";
  HOME_fs := "ext4";
  EFI_START := NInt 0;
  EFI_END := NInt 200;
  min_root_size := 23000;
  mdswh := 128;
|}.

Record World := {
  (** [os.path.exists], given what was done so far *)
  path_exists : trace → string → bool;
  (** how [subprocess.check_call(command)] ends *)
  check_call : list string → call;
  (** [device.length] and [device.sectorSize] of [parted.getDevice(root)] *)
  dev_length : Z;
  dev_sectorSize : Z;
  (** [new_part.path] of the partition just added, given what was done so far *)
  new_part_path : trace → string;
  (** [disk.getFreeSpaceRegions()], given what was done so far *)
  getFreeSpaceRegions : trace → list Geometry;
  (** [region.getSize()], in pyparted's megabytes *)
  getSize : Geometry → float;
  (** [parted.sizeToSectors(n, "MB", sector_size)] *)
  sizeToSectors : num → Z → Z;
  (** [psutil.virtual_memory().total] *)
  virtual_memory_total : Z;
  (** [x ** 0.5] where Python answers with a float, by the platform's
      [pow]; of a negative number it is a complex number *)
  pow_half : float → float;
  (** the merged configuration *)
  config : Config;
}.

(** ** Unit conversion (lines 35-46, 224-226) *)

Definition gb_to_bytes (gb : Z) : Z := gb * 10 ^ 9.

Definition bytes_to_gb (b : Z) : float := truediv b (10 ^ 9).

Definition LIMITER : Z := gb_to_bytes 32.

(** [sectors_to_size]: despite its docstring, sectors to megabytes. *)
Definition sectors_to_size (sectors sector_size : Z) : float :=
  truediv (sectors * sector_size) (1000 ^ 2).

(** ** The role-to-path dictionary (lines 293-309) *)

(** A Python value that is [None] or a string. *)
Definition path := option string.

Definition __generate_return_data__
    (home : path) (efi : bool) (part1 part2 part3 : path)
    : gmap string path :=
  let parts : gmap string path := ∅ in
  let parts :=
    if efi then <["ROOT" := part2]> (<["EFI" := part1]> parts)
    else <["ROOT" := part1]> (<["EFI" := None]> parts) in
  if negb (bool_decide (home = Some "MAKE")) then <["HOME" := home]> parts
  else if efi then <["HOME" := part3]> parts
  else <["HOME" := part2]> parts.

(** ** Python list indexing *)

(** The position [l[i]] denotes, if in range: negative indices count from
    the end. *)
Definition py_index {A} (l : list A) (i : Z) : option nat :=
  let n := Z.of_nat (length l) in
  if (0 <=? i) && (i <? n) then Some (Z.to_nat i)
  else if (- n <=? i) && (i <? 0) then Some (Z.to_nat (n + i))
  else None.

(** ** make_part_boot (lines 323-359) *)

(** A primary partition as the planner sees it: its device file and its
    boot flag. *)
Record Partition := {
  p_path : string;
  p_boot : bool;
}.

Definition setFlag_BOOT (p : Partition) : Partition :=
  {| p_path := p_path p; p_boot := true |}.

(** [getPrimaryPartitions] answers for the device named by the slice of the
    path; the result is that device and its partitions as committed. *)
Definition make_part_boot
    (getPrimaryPartitions : string → list Partition) (part_path : string)
    : outcome (string * list Partition) :=
  let root :=
    if PyStr.contains "nvme" part_path then PyStr.take 12 part_path
    else PyStr.take 8 part_path in
  let partitions := getPrimaryPartitions root in
  let number :=
    if PyStr.contains "nvme" part_path then PyStr.drop 13 part_path
    else PyStr.drop 8 part_path in
  match PyStr.int number with
  | None => Raise ValueError
  | Some i =>
      match py_index partitions i with
      | None => Raise IndexError
      | Some k => Ret (root, alter setFlag_BOOT k partitions)
      end
  end.

(** Dictionary items ordered by key. *)
Definition key_le (a b : Z * Geometry) : Prop := a.1 ≤ b.1.

#[global] Instance key_le_dec a b : Decision (key_le a b).
Proof. unfold key_le. apply _. Defined.

Section Planner.

Variable W : World.

(** ** get_min_root_size (lines 105-135)

    [ram_size] is [Some] for an int or a float and [None] for anything
    else, such as the default [False]. *)
Definition get_min_root_size
    (swap : bool) (ram_size : option num) (ram_size_unit bytes : bool)
    : M num :=
  swap_amount <~
    (if swap then
       let mem :=
         match ram_size with
         | None => NInt (virtual_memory_total W)
         | Some (NInt n) =>
             NInt (if ram_size_unit then gb_to_bytes n else n)
         | Some (NFloat f) =>
             NFloat (if ram_size_unit
                     then PrimFloat.mul f (of_Z (10 ^ 9)) else f)
         end in
       let memf := match mem with NInt n => of_Z n | NFloat f => f end in
       let gib :=
         match mem with
         | NInt n => truediv n (1024 ^ 3)
         | NFloat f => PrimFloat.div f (of_Z (1024 ^ 3))
         end in
       if PrimFloat.ltb gib PrimFloat.zero
          && negb (PrimFloat.is_infinity gib)
       then raise TypeError  (* [round] of a complex number *)
       else
         let amount :=
           PrimFloat.add memf
             (PrimFloat.mul (pow_half W gib) (of_Z (1024 ^ 3))) in
         match round amount with
         | Some z => ret z
         | None => raise (float_error amount)
         end
     else ret 0) ;;
  let min_root := swap_amount + min_root_size (config W) * 1000 ^ 2 in
  if negb bytes then ret (NFloat (bytes_to_gb min_root))
  else ret (NInt min_root).

(** ** Partition makers (lines 180-290)

    The alignment windows and size bounds these hand to pyparted's
    constraint are left out: the log keeps the boundaries asked for, and
    pyparted is taken to carry out what it is asked. *)

Definition __make_efi__ (start end_ : num) : M path :=
  emit (MakeEfi start end_) ;;;
  h <~ history ;;
  ret (Some (new_part_path W h)).

(** [int(size * (k / 100))] (lines 236-237, 242-243). *)
Definition percent_of (size : float) (k : Z) : option Z :=
  trunc (PrimFloat.mul size (truediv k 100)).

(** One boundary of [__make_root__]: a string ending in [%] becomes that
    share of the device size in megabytes; a number is kept (indexing it
    raises the [TypeError] the code catches); another string is kept too. *)
Definition resolve (size : float) (b : bound) : M bound :=
  match b with
  | BNum n => ret (BNum n)
  | BStr s =>
      match PyStr.last s with
      | None => raise IndexError
      | Some c =>
          if Ascii.eqb c "%" then
            match PyStr.int (PyStr.drop_last 1 s) with
            | None => raise ValueError
            | Some k =>
                match percent_of size k with
                | Some z => ret (BNum (NInt z))
                | None =>
                    raise (float_error (PrimFloat.mul size (truediv k 100)))
                end
            end
          else ret (BStr s)
      end
  end.

Definition __make_root__ (start end_ : bound) (fs : string) : M path :=
  let size := sectors_to_size (dev_length W) (dev_sectorSize W) in
  start <~ resolve size start ;;
  end_ <~ resolve size end_ ;;
  match start, end_ with
  | BNum s, BNum e =>
      emit (MakeRoot s e fs) ;;;
      h <~ history ;;
      ret (Some (new_part_path W h))
  | _, _ => raise TypeError  (* [start - 20] or [end - 40] on a string *)
  end.

Definition __make_home__ (new_start new_end : bound) (new_fs : string)
    : M path :=
  __make_root__ new_start new_end new_fs.

Definition __make_root_boot__ : M unit := emit RootBoot.

Definition clobber_disk (device : string) : M unit := emit (Clobber device).

(** ** make_raid_array (lines 534-589) *)

Definition raid_types_dict (raid_type : pyval) : option string :=
  match raid_type with
  | PInt 0 => Some "raid0"
  | PInt 1 => Some "raid1"
  | PInt 5 => Some "raid5"
  | PInt 6 => Some "raid6"
  | PInt 10 => Some "raid10"
  | _ => None
  end.

(** The member-count check (lines 567-575); [n] is [len(disks)]. *)
Definition count_ok (raid_type : pyval) (n : Z) : bool :=
  match raid_type with
  | PInt 0 | PInt 1 => negb (n <? 2)
  | PInt 5 => (3 <=? n) && (n <=? 16)
  | PInt 6 | PInt 10 => negb (n <? 4)
  | _ => true
  end.

(** The loop of lines 576-578. *)
Fixpoint check_exists (disks : list string) : M unit :=
  match disks with
  | [] => ret tt
  | each :: rest =>
      h <~ history ;;
      if negb (path_exists W h each) then raise FileNotFoundError
      else check_exists rest
  end.

(** Lines 584-589: [CalledProcessError] is caught, nothing else is. *)
Definition try_check_call (command : list string) : M bool :=
  emit (CheckCall command) ;;;
  match check_call W command with
  | Succeeds => ret true
  | Fails => ret false
  | NotRun => raise OSError
  end.

Definition not_in_0_5_6 (raid_type : pyval) : bool :=
  match raid_type with
  | PInt 0 | PInt 5 | PInt 6 => false
  | _ => true
  end.

(** The command line built at lines 562-583. *)
Definition raid_command (disks : list string) (name : string)
    (raid_type : pyval) (force : bool) : list string :=
  let command := ["mkfs.btrfs"; "-d"] in
  let command := if force then ["mkfs.btrfs"; "-f"; "-d"] else command in
  let command := command ++ [name] in
  let command :=
    if not_in_0_5_6 raid_type then command ++ ["-m"; name] else command in
  command ++ disks.

Definition make_raid_array
    (disks : list string) (raid_type : pyval) (force : bool) : M bool :=
  match raid_types_dict raid_type with
  | None => raise ValueError
  | Some name =>
      if negb (count_ok raid_type (Z.of_nat (length disks)))
      then raise ValueError
      else
        check_exists disks ;;;
        try_check_call (raid_command disks name raid_type force)
  end.

(** ** partition (lines 383-531) *)

(** [raid_array["disks"]]: on entry a dictionary from slot names to member
    paths (a slot may hold [None]); line 418 replaces it by a list. *)
Inductive members :=
| Slots (d : list (string * path))
| Members (l : list string).

(** The caller's [raid_array] dictionary, which [partition] updates in
    place. *)
Record RaidArray := {
  raid_type : pyval;
  disks : members;
}.

(** [raid_type is None]. *)
Definition is_none (raid_type : pyval) : bool :=
  match raid_type with
  | PNone => true
  | _ => false
  end.

(** [raid_type not in (None, "OEM")] (line 400). *)
Definition recognised (raid_type : pyval) : bool :=
  match raid_type with
  | PNone => false
  | PStr s => negb (String.eqb s "OEM")
  | PInt _ => true
  end.

(** Lines 401-406; an int has no [lower]. *)
Definition convert_raid_type (raid_type : pyval) : M pyval :=
  match raid_type with
  | PStr s =>
      if String.eqb (PyStr.lower s) "raid0" then ret (PInt 0)
      else if String.eqb (PyStr.lower s) "raid1" then ret (PInt 1)
      else if String.eqb (PyStr.lower s) "raid10" then ret (PInt 10)
      else ret raid_type
  | _ => raise AttributeError
  end.

Definition in_1_2 (each : string) : bool :=
  String.eqb each "1" || String.eqb each "2".

(** The loop of lines 407-411 over a dictionary. *)
Fixpoint check_slots (d : list (string * path)) (raid_type : pyval)
    : pyval :=
  match d with
  | [] => raid_type
  | (each, v) :: rest =>
      check_slots rest
        (if in_1_2 each && bool_decide (v = None) then PNone
         else raid_type)
  end.

(** Lines 400-411.  Over a list, [raid_array["disks"][each]] indexes a
    list with a string. *)
Definition check_raid_type (raid_array : RaidArray) : M pyval :=
  if recognised (raid_type raid_array) then
    raid_type <~ convert_raid_type (raid_type raid_array) ;;
    match disks raid_array with
    | Slots d => ret (check_slots d raid_type)
    | Members l =>
        if existsb in_1_2 l then raise TypeError else ret raid_type
    end
  else ret (raid_type raid_array).

(** The list built at lines 414-417. *)
Definition member_list (d : list (string * path)) : list string :=
  omap snd d.

(** Lines 400-418: the state of [raid_array] when planning starts. *)
Definition normalise (raid_array : RaidArray) : M RaidArray :=
  raid_type <~ check_raid_type raid_array ;;
  match raid_type with
  | PNone => ret {| raid_type := PNone; disks := disks raid_array |}
  | _ =>
      match disks raid_array with
      | Slots d =>
          ret {| raid_type := raid_type; disks := Members (member_list d) |}
      | Members [] =>
          ret {| raid_type := raid_type; disks := Members [] |}
      | Members (_ :: _) => raise TypeError
      end
  end.

(** [home in ("NULL", "null", None, "MAKE")] (line 426). *)
Definition null_or_make (home : path) : bool :=
  match home with
  | None => true
  | Some s => String.eqb s "NULL" || String.eqb s "null" || String.eqb s "MAKE"
  end.

(** [home in ("NULL", "null", None)] (line 471). *)
Definition is_null (home : path) : bool :=
  match home with
  | None => true
  | Some s => String.eqb s "NULL" || String.eqb s "null"
  end.

(** Lines 426-441: clobber, build the array, and the home policy that
    results. *)
Definition prepare (root : string) (home : path) (raid_array : RaidArray)
    : M path :=
  if null_or_make home && is_none (raid_type raid_array) then
    clobber_disk root ;;; ret home
  else if negb (is_none (raid_type raid_array)) then
    clobber_disk root ;;;
    let members :=  (* a list by now: line 418 ran *)
      match disks raid_array with Members l => l | Slots _ => [] end in
    built <~ make_raid_array members (raid_type raid_array) false ;;
    if negb built then
      forced <~ make_raid_array members (raid_type raid_array) true ;;
      if negb forced then ret None else ret home
    else ret home
  else ret home.

(** EFI and root over the whole device, or root alone and bootable
    (lines 443-448, 475-480). *)
Definition whole_device (efi : bool) (root_end : bound) : M (path * path) :=
  if efi then
    part1 <~ __make_efi__ (EFI_START (config W)) (EFI_END (config W)) ;;
    part2 <~ __make_root__ (ROOT_START (config W)) root_end
               (ROOT_fs (config W)) ;;
    ret (part1, part2)
  else
    part1 <~ __make_root__ (BStr "0%") (BStr "100%") (ROOT_fs (config W)) ;;
    __make_root_boot__ ;;;
    ret (part1, None).

(** [sizes] (lines 495-497): the regions keyed by length, a later region
    replacing an earlier one of the same length. *)
Definition sizes_of (data : list Geometry) : gmap Z Geometry :=
  foldl (λ sizes each, <[g_length each := each]> sizes) ∅ data.

(** [sorted(sizes)], each key with [sizes[key]]. *)
Definition sizes_sorted (sizes : gmap Z Geometry) : list (Z * Geometry) :=
  merge_sort key_le (map_to_list sizes).

(** The loop of lines 501-510. *)
Fixpoint scan_efi (l : list (Z * Geometry)) : M (path * path) :=
  match l with
  | [] => ret (None, None)
  | (_, region) :: rest =>
      if float_ge_Z (getSize W region) 200 then
        let end_ := g_start region
                    + sizeToSectors W (NInt 200) (dev_sectorSize W) in
        let end_ := sectors_to_size end_ (dev_sectorSize W) in
        part1 <~ __make_efi__ (NInt (g_start region)) (NFloat end_) ;;
        part2 <~ __make_root__ (BNum (NFloat end_))
                   (BNum (NInt (g_end region))) (ROOT_fs (config W)) ;;
        ret (part1, part2)
      else scan_efi rest
  end.

(** The loop of lines 512-517. *)
Fixpoint scan_root (l : list (Z * Geometry)) : M (path * path) :=
  match l with
  | [] => ret (None, None)
  | (_, region) :: rest =>
      if float_ge_Z (getSize W region) 200 then
        part1 <~ __make_root__ (BNum (NInt (g_start region)))
                   (BNum (NInt (g_end region))) (ROOT_fs (config W)) ;;
        __make_root_boot__ ;;;
        ret (part1, None)
      else scan_root rest
  end.

(** The device a home partition path lies on (lines 485-488). *)
Definition device_of (home : string) : string :=
  if PyStr.contains "nvme" home then PyStr.drop_last 2 home
  else PyStr.drop_last 1 home.

(** [size] of line 425. *)
Definition device_size : float :=
  PrimFloat.mul (sectors_to_size (dev_length W) (dev_sectorSize W))
    (of_Z 1000).

(** Lines 442-531, with the home policy [prepare] left. *)
Definition layout (root : string) (efi : bool) (home : path)
    : M (gmap string path) :=
  let size := device_size in
  if float_le_Z size LIMITER then
    made <~ whole_device efi (BStr "100%") ;;
    let '(part1, part2) := made in
    ret (__generate_return_data__ home efi part1 part2 None)
  else if bool_decide (home = Some "MAKE") then
    root_end <~
      (if float_ge_Z size (gb_to_bytes (mdswh (config W))) then
         let share :=
           PrimFloat.div (PrimFloat.mul size 0.35%float) (of_Z (1000 ^ 2)) in
         match trunc share with
         | Some z => ret (NInt z)
         | None => raise (float_error share)
         end
       else get_min_root_size true None true true) ;;
    made <~
      (if efi then
         part1 <~ __make_efi__ (EFI_START (config W)) (EFI_END (config W)) ;;
         part2 <~ __make_root__ (ROOT_START (config W)) (BNum root_end)
                    (ROOT_fs (config W)) ;;
         part3 <~ __make_home__ (BNum root_end) (HOME_END (config W))
                    (HOME_fs (config W)) ;;
         ret (part1, part2, part3)
       else
         part1 <~ __make_root__ (BStr "0%") (BNum root_end)
                    (ROOT_fs (config W)) ;;
         __make_root_boot__ ;;;
         part2 <~ __make_home__ (BNum root_end) (HOME_END (config W))
                    (HOME_fs (config W)) ;;
         ret (part1, part2, None)) ;;
    let '(part1, part2, part3) := made in
    ret (__generate_return_data__ home efi part1 part2 part3)
  else if is_null home then
    made <~ whole_device efi (BStr "100%") ;;
    let '(part1, part2) := made in
    ret (__generate_return_data__ home efi part1 part2 None)
  else
    let home_path := default "" home in
    if String.eqb root (device_of home_path) then
      h <~ history ;;
      let data := getFreeSpaceRegions W h in
      let sizes := sizes_sorted (sizes_of data) in
      made <~ (if efi then scan_efi sizes else scan_root sizes) ;;
      let '(part1, part2) := made in
      ret (__generate_return_data__ home efi part1 part2 None)
    else
      made <~ whole_device efi (ROOT_END (config W)) ;;
      let '(part1, part2) := made in
      ret (__generate_return_data__ home efi part1 part2 home).

Definition partition (root : string) (efi : bool) (home : path)
    (raid_array : RaidArray) : M (gmap string path) :=
  raid_array <~ normalise raid_array ;;
  home <~ prepare root home raid_array ;;
  layout root efi home.

End Planner.

(** ** Sample machines

    Worlds to run the planner in: one disk [/dev/sda] whose partitions are
    numbered as they are made, pyparted's conversions read as plain
    arithmetic, and the square root for [x ** 0.5]. *)

(** The decimal numeral of [n], as it ends a partition path. *)
Definition decimal (n : nat) : string :=
  NilEmpty.string_of_uint (Nat.to_uint n).

Module Examples.

Definition is_creation (e : event) : bool :=
  match e with
  | MakeEfi _ _ | MakeRoot _ _ _ => true
  | _ => false
  end.

Definition mb_to_sectors (n : num) (sector_size : Z) : Z :=
  match n with
  | NInt z => (z * 1000 ^ 2 + sector_size - 1) / sector_size
  | NFloat f =>
      default 0 (trunc (PrimFloat.div (PrimFloat.mul f (of_Z (1000 ^ 2)))
                          (of_Z sector_size)))
  end.

Definition machine (length sector_size : Z) (present : trace → list string)
    (mkfs : list string → call) (free : list Geometry) : World := {|
  path_exists := λ t p, bool_decide (p ∈ present t);
  check_call := mkfs;
  dev_length := length;
  dev_sectorSize := sector_size;
  new_part_path := λ t, "/dev/sda" +:+ decimal (List.length (filter is_creation t));
  getFreeSpaceRegions := λ _, free;
  getSize := λ g, truediv (g_length g * sector_size) (1024 ^ 2);
  sizeToSectors := mb_to_sectors;
  virtual_memory_total := 8 * 1024 ^ 3;
  pow_half := PrimFloat.sqrt;
  config := default_config;
|}.

(** 64 GB, 40 TB and 200 TB in 512-byte sectors. *)
Definition sectors_64GB : Z := 125000000.
Definition sectors_40TB : Z := 78125000000.
Definition sectors_200TB : Z := 390625000000.

(** A 64 GB disk; no other device file exists. *)
Definition bare_64GB : World :=
  machine sectors_64GB 512 (λ _, []) (λ _, Succeeds) [].

(** 64 GB and 40 TB disks beside two present member disks on which
    [mkfs.btrfs] fails. *)
Definition members_present : list string := ["/dev/sdb"; "/dev/sdc"].

Definition failing_64GB : World :=
  machine sectors_64GB 512 (λ _, members_present) (λ _, Fails) [].

Definition is_command (e : event) : bool :=
  match e with
  | CheckCall _ => true
  | _ => false
  end.

(** The same, but the member device files are gone once a command has been
    run on them. *)
Definition vanishing_64GB : World :=
  machine sectors_64GB 512
    (λ t, if existsb is_command t then [] else members_present)
    (λ _, Fails) [].

(** A 40 TB disk holding [/dev/sda3], with the free regions given. *)
Definition used_40TB (free : list Geometry) : World :=
  machine sectors_40TB 512 (λ _, []) (λ _, Succeeds) free.

Definition bare_200TB : World :=
  machine sectors_200TB 512 (λ _, []) (λ _, Succeeds) [].

(** A free region of some 2 GB that starts at sector 2048. *)
Definition gap : Geometry :=
  {| g_start := 2048; g_length := 4000000; g_end := 4002047 |}.

Definition no_raid : RaidArray :=
  {| raid_type := PNone; disks := Slots [] |}.

Definition two_slots (raid_type : string) : RaidArray :=
  {| raid_type := PStr raid_type;
     disks := Slots [("1", Some "/dev/sdb"); ("2", Some "/dev/sdc")] |}.

End Examples.

(** * The code around the planner *)

(** Exceptions the planner itself never raises. *)
Inductive exc :=
| NameError
| UnboundLocalError
| KeyError.

(** Runs [k] on what [r] returned, unless [r] raised. *)
Definition and_then {A B} (r : exc + A) (k : A → exc + B) : exc + B :=
  match r with
  | inl e => inl e
  | inr a => k a
  end.

(** ** The configuration (lines 49-75)

    The settings file as the module reads it: [None] when it does not exist
    ([FileNotFoundError], caught); otherwise the JSON object it holds, of
    which only the entry ["partitioning"], a dictionary when present, is
    looked at.  [V] is the type of the entries. *)

Section Settings.

Context {V : Type}.

(** [if key not in new_config: new_config[key] = config[key]]. *)
Definition fill (config : gmap string V) (key : string)
    (new_config : gmap string V) : exc + gmap string V :=
  match new_config !! key with
  | Some _ => inr new_config
  | None =>
      match config !! key with
      | Some v => inr (<[key := v]> new_config)
      | None => inl KeyError
      end
  end.

(** The value of [config] once the module is loaded.  Without a
    ["partitioning"] entry the name [new_config] is never bound, and line 62
    reads it. *)
Definition load_config (config : gmap string V)
    (settings : option (option (gmap string V))) : exc + gmap string V :=
  match settings with
  | None => inr config
  | Some None => inl NameError
  | Some (Some new_config) =>
      and_then (fill config "ROOT" new_config) (λ new_config,
      and_then (fill config "HOME" new_config) (λ new_config,
      and_then (fill config "EFI" new_config) (λ new_config,
      and_then (fill config "min root size" new_config) (λ new_config,
      fill config "mdswh" new_config))))
  end.

End Settings.

(** The keys the module fills in. *)
Definition config_keys : list string :=
  ["ROOT"; "HOME"; "EFI"; "min root size"; "mdswh"].

(** ** check_disk_state (lines 138-148) *)

(** An entry of lsblk's ["blockdevices"]. *)
Record BlockDevice := {
  bd_name : string;
  bd_size : Z;
  bd_type : string;
  bd_fstype : option string;
}.

(** The loop of lines 145-147, from index [each] down to 0, deleting in
    place. *)
Fixpoint drop_loops (each : nat) (data : list BlockDevice)
    : outcome (list BlockDevice) :=
  match data !! each with
  | None => Raise IndexError
  | Some device =>
      let data :=
        if String.eqb (bd_type device) "loop" then delete each data
        else data in
      match each with
      | O => Ret data
      | S each' => drop_loops each' data
      end
  end.

(** [blockdevices] is what [lsblk --json] printed, parsed. *)
Definition check_disk_state (blockdevices : list BlockDevice)
    : outcome (list BlockDevice) :=
  match length blockdevices with
  | O => Ret blockdevices
  | S last => drop_loops last blockdevices
  end.

(** ** Devices of partition paths *)

(** [root] of [size_of_part] (lines 85-88) and of [make_part_boot]
    (lines 343-346). *)
Definition size_of_part_root (part_path : string) : string :=
  if PyStr.contains "nvme" part_path then PyStr.take 12 part_path
  else PyStr.take 8 part_path.

(** The device [delete_part] opens (lines 373-376). *)
Definition delete_part_device (part_path : string) : string :=
  if PyStr.contains "nvme" part_path then PyStr.drop_last 2 part_path
  else PyStr.drop_last 1 part_path.

(** ** de_control: immersion *)

(** What [enable.immersion] and [disable.immersion] do to the desktop. *)
Inductive de_event :=
| Popen (command : list string)
| Terminate (pid : nat).

(** A process as [psutil.process_iter()] yields it. *)
Record Process := {
  proc_pid : nat;
  proc_name : string;
}.

(** The loop of [enable.immersion]. *)
Fixpoint terminate_panels (procs : list Process) : list de_event :=
  match procs with
  | [] => []
  | proc :: rest =>
      if String.eqb (proc_name proc) "xfce4-panel"
      then Terminate (proc_pid proc) :: terminate_panels rest
      else terminate_panels rest
  end.

Definition enable_immersion (process_iter : list Process) : list de_event :=
  Popen ["xfconf-query"; "--channel"; "xfce4-desktop"; "--property";
         "/desktop-icons/style"; "--set"; "0"]
  :: terminate_panels process_iter.

Definition disable_immersion : list de_event :=
  [Popen ["xfce4-panel"];
   Popen ["xfconf-query"; "--channel"; "xfce4-desktop"; "--property";
          "/desktop-icons/style"; "--set"; "2"]].

(** ** partition-mapper: onnextclicked

    The four arguments are the texts of the entries; the result is the line
    printed before [exit(0)].  With an empty root entry the name [root] is
    never bound, and the [print] reads it. *)
Definition onnextclicked (root_text efi_text home_text swap_text : string)
    : exc + string :=
  let root := if String.eqb root_text "" then None else Some root_text in
  let efi := if String.eqb efi_text "" then "NULL" else efi_text in
  let home := if String.eqb home_text "" then "NULL" else home_text in
  let swap := if String.eqb swap_text "" then "FILE" else swap_text in
  match root with
  | None => inl UnboundLocalError
  | Some root =>
      inr ("ROOT:" +:+ root +:+ ",EFI:" +:+ efi +:+ ",HOME:" +:+ home
           +:+ ",SWAP:" +:+ swap)
  end.

(** ** Predicates of the statements *)

(** The types [raid_types_dict] knows. *)
Definition valid_type (raid_type : pyval) : Prop :=
  raid_type = PInt 0 ∨ raid_type = PInt 1 ∨ raid_type = PInt 5
  ∨ raid_type = PInt 6 ∨ raid_type = PInt 10.

(** The member counts the docstring rules out for a type. *)
Definition bad_count (raid_type : pyval) (n : nat) : Prop :=
  ((raid_type = PInt 0 ∨ raid_type = PInt 1) ∧ (n < 2)%nat)
  ∨ (raid_type = PInt 5 ∧ ((n < 3)%nat ∨ (16 < n)%nat))
  ∨ ((raid_type = PInt 6 ∨ raid_type = PInt 10) ∧ (n < 4)%nat).

(** What [make_raid_array] makes of the way its command ended: true, false
    for the [CalledProcessError] it catches, or the exception it lets
    through. *)
Definition answer (c : call) : outcome bool :=
  match c with
  | Succeeds => Ret true
  | Fails => Ret false
  | NotRun => Raise OSError
  end.

(** [logs P m]: whatever [m] does, it only appends events satisfying [P]. *)
Definition logs {A} (P : event → Prop) (m : M A) : Prop :=
  ∀ t r t', m t = (r, t') → ∃ ext, t' = t ++ ext ∧ Forall P ext.

(** Events that lay partitions out: neither a clobber nor a command. *)
Definition planning (e : event) : Prop :=
  match e with
  | MakeEfi _ _ | MakeRoot _ _ _ | RootBoot => True
  | Clobber _ | CheckCall _ => False
  end.

(** What a layout may ask for under a boot mode: an EFI partition only on
    UEFI, the boot flag on root only on BIOS. *)
Definition fits (efi : bool) (e : event) : Prop :=
  match e with
  | MakeEfi _ _ => efi = true
  | RootBoot => efi = false
  | MakeRoot _ _ _ => True
  | Clobber _ | CheckCall _ => False
  end.

(** An array-creation command. *)
Definition command (e : event) : Prop :=
  match e with
  | CheckCall _ => True
  | _ => False
  end.


(** A float that is neither an infinity nor a NaN. *)
Definition finite (f : float) : Prop :=
  match Prim2SF f with
  | S754_zero _ | S754_finite _ _ _ => True
  | S754_infinity _ | S754_nan => False
  end.




(** [within n m]: whatever [m] does, it appends at most [n] events. *)
Definition within {A} (n : nat) (m : M A) : Prop :=
  ∀ t r t', m t = (r, t') → ∃ ext, t' = t ++ ext ∧ (length ext ≤ n)%nat.

(** The strings [partition] turns into a RAID type. *)
Definition converted (s : string) : Prop :=
  PyStr.lower s = "raid0" ∨ PyStr.lower s = "raid1"
  ∨ PyStr.lower s = "raid10".

Section Statements.

Variable W : World.

(** What the planner needs of the device and the configuration to lay a
    root partition over the whole device: the device size in megabytes is
    a finite number, and the configured start of root is a number. *)
Definition plannable : Prop :=
  let size := sectors_to_size (dev_length W) (dev_sectorSize W) in
  (∃ z, percent_of size 100 = Some z)
  ∧ (∃ z, percent_of size 0 = Some z)
  ∧ (∃ n, ROOT_START (config W) = BNum n).

(** No region on offer reaches 200 MB. *)
Definition all_small (l : list (Z * Geometry)) : Prop :=
  Forall (λ item, float_ge_Z (getSize W item.2) 200 = false) l.

(** The one case without a root: the device is past the limiter as the
    code measures it, the home policy is a partition path that the code
    places on the destination device, and of the free regions the table
    offers when the RAID stage is over ([t] is the log by then) none reaches
    200 MB. *)
Definition no_room (root : string) (home : path) (t : trace) : Prop :=
  float_le_Z (device_size W) LIMITER = false
  ∧ (∃ h, home = Some h ∧ null_or_make home = false ∧ root = device_of h)
  ∧ all_small (sizes_sorted (sizes_of (getFreeSpaceRegions W t))).


(** The requests made for the region chosen when EFI is required. *)
Definition efi_requests (region : Geometry) : trace :=
  let end_ :=
    sectors_to_size
      (g_start region + sizeToSectors W (NInt 200) (dev_sectorSize W))
      (dev_sectorSize W) in
  [MakeEfi (NInt (g_start region)) (NFloat end_);
   MakeRoot (NFloat end_) (NInt (g_end region)) (ROOT_fs (config W))].

(** And when it is not. *)
Definition root_requests (region : Geometry) : trace :=
  [MakeRoot (NInt (g_start region)) (NInt (g_end region))
     (ROOT_fs (config W));
   RootBoot].

End Statements.

(** * Properties *)

(** ** The monad *)

Lemma bind_unfold {A B} (m : M A) (k : A → M B) t :
  bind m k t = match m t with
               | (Ret a, t') => k a t'
               | (Raise e, t') => (Raise e, t')
               end.
Proof. reflexivity. Qed.

Lemma bind_ret {A B} (m : M A) (k : A → M B) t a t' :
  m t = (Ret a, t') → bind m k t = k a t'.
Proof. intros H. unfold bind. now rewrite H. Qed.

Lemma bind_raise {A B} (m : M A) (k : A → M B) t e t' :
  m t = (Raise e, t') → bind m k t = (Raise e, t').
Proof. intros H. unfold bind. now rewrite H. Qed.

(** ** make_raid_array *)

Section RaidFacts.

Variable W : World.

Lemma check_exists_eq disks t :
  check_exists W disks t =
    if forallb (path_exists W t) disks then (Ret tt, t)
    else (Raise FileNotFoundError, t).
Proof.
  induction disks as [|each rest IH]; simpl; [reflexivity|].
  rewrite bind_unfold. simpl.
  destruct (path_exists W t each); simpl; [exact IH | reflexivity].
Qed.

Lemma try_check_call_eq command t :
  try_check_call W command t
  = (answer (check_call W command), t ++ [CheckCall command]).
Proof.
  unfold try_check_call. rewrite bind_unfold. simpl.
  destruct (check_call W command); reflexivity.
Qed.

(** The ways a call can end. *)
Lemma make_raid_array_eq disks raid_type force t :
  make_raid_array W disks raid_type force t =
    match raid_types_dict raid_type with
    | None => (Raise ValueError, t)
    | Some name =>
        if negb (count_ok raid_type (Z.of_nat (length disks)))
        then (Raise ValueError, t)
        else if forallb (path_exists W t) disks
        then
          let command := raid_command disks name raid_type force in
          (answer (check_call W command), t ++ [CheckCall command])
        else (Raise FileNotFoundError, t)
    end.
Proof.
  unfold make_raid_array.
  destruct (raid_types_dict raid_type) as [name|]; [|reflexivity].
  destruct (negb _); [reflexivity|].
  rewrite bind_unfold, check_exists_eq.
  destruct (forallb _ _); [apply try_check_call_eq | reflexivity].
Qed.

Lemma raid_types_dict_None raid_type :
  raid_types_dict raid_type = None ↔ ¬ valid_type raid_type.
Proof.
  unfold valid_type. split.
  - intros H [->|[->|[->|[->| ->]]]]; discriminate H.
  - intros H. destruct raid_type as [| |z]; try reflexivity.
    destruct z as [|p|p]; try reflexivity.
    + exfalso. apply H. now left.
    + repeat match goal with
             | q : positive |- _ => destruct q; try reflexivity
             end;
        exfalso; apply H; auto 6.
Qed.

Lemma count_ok_false raid_type n :
  valid_type raid_type →
  count_ok raid_type (Z.of_nat n) = false ↔ bad_count raid_type n.
Proof.
  unfold bad_count.
  intros [->|[->|[->|[->| ->]]]]; simpl;
    rewrite ?negb_false_iff, ?andb_false_iff, ?Z.ltb_lt, ?Z.leb_gt;
    split; intros H.
  all: try (left; split; [auto|lia]).
  all: try (right; left; split; [auto|lia]).
  all: try (right; right; split; [auto|lia]).
  all: destruct H as [[[H|H] Hn]|[[H Hn]|[[H|H] Hn]]];
    try discriminate H; lia.
Qed.

End RaidFacts.

Lemma raid_types_dict_Some raid_type name :
  raid_types_dict raid_type = Some name → valid_type raid_type.
Proof.
  unfold valid_type. intros H.
  destruct raid_type as [| |z]; try discriminate H.
  destruct z as [|p|p]; try discriminate H; [auto|].
  repeat match goal with
         | q : positive |- _ => destruct q; try discriminate H
         end;
    auto 6.
Qed.

(** C2, as amended: [make_raid_array] raises [ValueError] when the type is
    not one of 0, 1, 5, 6, 10; for a valid type it raises [ValueError]
    exactly when the member count is out of the type's bounds; and with a
    valid type and count it raises [FileNotFoundError] when a member path
    does not exist, and otherwise runs the array-creation command: it
    returns whether the command succeeded, and lets through what the call
    raises other than [CalledProcessError]. *)
Theorem make_raid_array_validation W disks raid_type force t :
  (¬ valid_type raid_type →
     make_raid_array W disks raid_type force t = (Raise ValueError, t))
  ∧ (valid_type raid_type →
       ((make_raid_array W disks raid_type force t).1 = Raise ValueError
        ↔ bad_count raid_type (length disks))
       ∧ (¬ bad_count raid_type (length disks) →
            ∃ name,
              raid_types_dict raid_type = Some name
              ∧ make_raid_array W disks raid_type force t =
                  if forallb (path_exists W t) disks
                  then
                    let command := raid_command disks name raid_type force in
                    (answer (check_call W command), t ++ [CheckCall command])
                  else (Raise FileNotFoundError, t))).
Proof.
  rewrite make_raid_array_eq. split.
  - intros H. apply raid_types_dict_None in H. now rewrite H.
  - intros Hv. pose proof (count_ok_false raid_type (length disks) Hv) as Hc.
    destruct (raid_types_dict raid_type) as [name|] eqn:Hd.
    2: { apply raid_types_dict_None in Hd. contradiction. }
    destruct (count_ok raid_type (Z.of_nat (length disks))); simpl.
    + split.
      * split; [|intros Hb; apply Hc in Hb; discriminate Hb].
        destruct (forallb _ _); [destruct (check_call W _)|]; simpl;
          intros H; discriminate H.
      * intros _. exists name. split; reflexivity.
    + split.
      * split; [intros _; now apply Hc | reflexivity].
      * intros Hb. exfalso. apply Hb. now apply Hc.
Qed.

(** C2, as stated, fails: RAID0 over two members is a valid type and a
    valid count, yet no array creation is attempted when the member device
    files are missing. *)
Lemma make_raid_array_missing_member :
  valid_type (PInt 0)
  ∧ ¬ bad_count (PInt 0) (length ["/dev/sdb"; "/dev/sdc"])
  ∧ run (make_raid_array Examples.bare_64GB ["/dev/sdb"; "/dev/sdc"]
           (PInt 0) false)
    = (Raise FileNotFoundError, []).
Proof.
  split; [now left|]. split; [|reflexivity].
  unfold bad_count. simpl. intros [[_ H]|[[H _]|[[H|H] _]]];
    [lia | discriminate H | discriminate H | discriminate H].
Qed.

(** ** What a computation adds to the log *)

Lemma logs_ret {A} P (a : A) : logs P (ret a).
Proof.
  intros t r t' [= <- <-]. exists []. now rewrite app_nil_r.
Qed.

Lemma logs_raise {A} P e : logs P (@raise A e).
Proof.
  intros t r t' [= <- <-]. exists []. now rewrite app_nil_r.
Qed.

Lemma logs_history P : logs P history.
Proof.
  intros t r t' [= <- <-]. exists []. now rewrite app_nil_r.
Qed.

Lemma logs_emit (P : event → Prop) e : P e → logs P (emit e).
Proof.
  intros He t r t' [= <- <-]. exists [e]. split; [reflexivity|].
  now constructor.
Qed.

Lemma logs_bind {A B} P (m : M A) (k : A → M B) :
  logs P m → (∀ a, logs P (k a)) → logs P (bind m k).
Proof.
  intros Hm Hk t r t' H. rewrite bind_unfold in H.
  destruct (m t) as [[a|e] t1] eqn:E; apply Hm in E as (ext1 & -> & F1).
  - apply Hk in H as (ext2 & -> & F2). exists (ext1 ++ ext2).
    split; [now rewrite app_assoc | now apply Forall_app].
  - injection H as <- <-. now exists ext1.
Qed.

(** A computation that logs nothing leaves the log as it found it. *)
Lemma logs_nothing {A} (m : M A) t r t' :
  logs (λ _, False) m → m t = (r, t') → t' = t.
Proof.
  intros Hm H. apply Hm in H as (ext & -> & F).
  destruct ext as [|e ext]; [now rewrite app_nil_r|].
  now apply Forall_cons in F as [[] _].
Qed.

(** Takes a computation apart along its binds and branches. *)
Ltac log_step :=
  match goal with
  | |- logs _ (bind _ _) => apply logs_bind; [|intros ?]
  | |- logs _ (ret _) => apply logs_ret
  | |- logs _ (raise _) => apply logs_raise
  | |- logs _ history => apply logs_history
  | |- logs _ (emit _) => apply logs_emit; simpl; auto
  | |- logs _ (if ?b then _ else _) => destruct b
  | |- logs _ (match ?x with _ => _ end) => destruct x
  end.

Create HintDb logs.

Section LayoutFacts.

Variable W : World.

Lemma make_efi_eq start end_ t :
  __make_efi__ W start end_ t =
    (Ret (Some (new_part_path W (t ++ [MakeEfi start end_]))),
     t ++ [MakeEfi start end_]).
Proof. reflexivity. Qed.

Lemma resolve_quiet size b t r t' :
  resolve size b t = (r, t') → t' = t.
Proof.
  unfold resolve. intros H.
  repeat match type of H with
         | context [match ?x with _ => _ end] => destruct x
         end;
    now injection H.
Qed.

(** [__make_root__] either raises before touching the disk or adds one
    partition and returns its path. *)
Lemma make_root_cases start end_ fs t :
  (∃ e, __make_root__ W start end_ fs t = (Raise e, t))
  ∨ (∃ s e,
       __make_root__ W start end_ fs t =
         (Ret (Some (new_part_path W (t ++ [MakeRoot s e fs]))),
          t ++ [MakeRoot s e fs])).
Proof.
  unfold __make_root__. rewrite bind_unfold.
  destruct (resolve _ start t) as [[s|e] t1] eqn:E1;
    pose proof (resolve_quiet _ _ _ _ _ E1) as ->; [|eauto].
  rewrite bind_unfold.
  destruct (resolve _ end_ t) as [[e'|e] t1] eqn:E2;
    pose proof (resolve_quiet _ _ _ _ _ E2) as ->; [|eauto].
  destruct s as [s|s]; [|eauto]. destruct e' as [e'|e']; [|eauto].
  right. exists s, e'. reflexivity.
Qed.

Lemma logs_make_root start end_ fs : logs planning (__make_root__ W start end_ fs).
Proof.
  intros t r t' H.
  destruct (make_root_cases start end_ fs t) as [[e E]|(s & e & E)];
    rewrite E in H; injection H as <- <-.
  - exists []. now rewrite app_nil_r.
  - eexists. split; [reflexivity|]. now repeat constructor.
Qed.

Lemma logs_make_efi start end_ : logs planning (__make_efi__ W start end_).
Proof. unfold __make_efi__. repeat log_step. Qed.

Lemma logs_get_min_root_size swap ram unit bytes :
  logs planning (get_min_root_size W swap ram unit bytes).
Proof. unfold get_min_root_size. repeat log_step. Qed.

Lemma logs_make_root_boot : logs planning __make_root_boot__.
Proof. now apply logs_emit. Qed.

Hint Resolve logs_make_root logs_make_efi logs_get_min_root_size
  logs_make_root_boot : logs.

Lemma logs_whole_device efi root_end :
  logs planning (whole_device W efi root_end).
Proof.
  unfold whole_device. repeat (log_step; auto with logs).
Qed.

Lemma logs_scan_efi l : logs planning (scan_efi W l).
Proof.
  induction l as [|[k region] rest IH]; simpl;
    repeat (log_step; auto with logs).
Qed.

Lemma logs_scan_root l : logs planning (scan_root W l).
Proof.
  induction l as [|[k region] rest IH]; simpl;
    repeat (log_step; auto with logs).
Qed.

Hint Resolve logs_whole_device logs_scan_efi logs_scan_root : logs.

(** Laying out never clobbers and never runs a command. *)
Lemma logs_layout root efi home : logs planning (layout W root efi home).
Proof.
  unfold layout, __make_home__.
  repeat (log_step; auto with logs).
Qed.

End LayoutFacts.

(** ** The minimum root size *)






(** ** The RAID stage of the planner *)

Section RaidStage.

Variable W : World.

Lemma normalise_quiet raid_array t r t' :
  normalise raid_array t = (r, t') → t' = t.
Proof.
  apply logs_nothing.
  unfold normalise, check_raid_type, convert_raid_type.
  repeat log_step.
Qed.




Lemma check_slots_set d raid_type :
  (∀ each, in_1_2 each = true → (each, None) ∉ d) →
  check_slots d raid_type = raid_type.
Proof.
  revert raid_type. induction d as [|[k v] rest IH]; intros raid_type H;
    simpl; [reflexivity|].
  destruct (in_1_2 k) eqn:Hk; simpl.
  - destruct v as [p|]; simpl.
    + apply IH. intros each He Hin. apply (H each He).
      now apply list_elem_of_further.
    + exfalso. apply (H k Hk). apply list_elem_of_here.
  - apply IH. intros each He Hin. apply (H each He).
    now apply list_elem_of_further.
Qed.

Lemma convert_unconverted s t :
  ¬ converted s → convert_raid_type (PStr s) t = (Ret (PStr s), t).
Proof.
  unfold converted, convert_raid_type. intros H.
  destruct (String.eqb_spec (PyStr.lower s) "raid0"); [tauto|].
  destruct (String.eqb_spec (PyStr.lower s) "raid1"); [tauto|].
  destruct (String.eqb_spec (PyStr.lower s) "raid10"); [tauto|].
  reflexivity.
Qed.





(** With one, it clobbers and builds, forcing once after a failure; the
    forced build checks the member device files again. *)
Lemma prepare_raid root home raid_array members t :
  is_none (raid_type raid_array) = false →
  disks raid_array = Members members →
  prepare W root home raid_array t =
    let t0 := t ++ [Clobber root] in
    match raid_types_dict (raid_type raid_array) with
    | None => (Raise ValueError, t0)
    | Some name =>
        if negb (count_ok (raid_type raid_array) (Z.of_nat (length members)))
        then (Raise ValueError, t0)
        else if forallb (path_exists W t0) members
        then
          let c1 := raid_command members name (raid_type raid_array) false in
          let c2 := raid_command members name (raid_type raid_array) true in
          match check_call W c1 with
          | Succeeds => (Ret home, t0 ++ [CheckCall c1])
          | NotRun => (Raise OSError, t0 ++ [CheckCall c1])
          | Fails =>
              if forallb (path_exists W (t0 ++ [CheckCall c1])) members
              then
                (match check_call W c2 with
                 | Succeeds => Ret home
                 | Fails => Ret None
                 | NotRun => Raise OSError
                 end, t0 ++ [CheckCall c1; CheckCall c2])
              else (Raise FileNotFoundError, t0 ++ [CheckCall c1])
          end
        else (Raise FileNotFoundError, t0)
    end.
Proof.
  intros Hn Hd. unfold prepare. rewrite Hn, Hd, andb_false_r. simpl.
  unfold clobber_disk. rewrite bind_unfold. simpl.
  rewrite bind_unfold, make_raid_array_eq.
  destruct (raid_types_dict (raid_type raid_array)) as [name|] eqn:Hname;
    [|reflexivity].
  destruct (negb (count_ok _ _)) eqn:Hc; [reflexivity|].
  cbv zeta.
  destruct (forallb (path_exists W (t ++ [Clobber root])) members);
    [|reflexivity].
  destruct (check_call W (raid_command _ _ _ false)); simpl;
    [reflexivity| |reflexivity].
  rewrite bind_unfold, make_raid_array_eq, Hname, Hc.
  destruct (forallb _ members); [|reflexivity].
  cbv zeta. rewrite <- !app_assoc. simpl.
  destruct (check_call W (raid_command _ _ _ true)); reflexivity.
Qed.


(** Once normalised, a request with a type carries a member list. *)
Lemma normalise_members raid_array ready t t' :
  normalise raid_array t = (Ret ready, t') →
  is_none (raid_type ready) = false →
  ∃ members, disks ready = Members members.
Proof.
  unfold normalise. rewrite bind_unfold.
  destruct (check_raid_type raid_array t) as [[rt|e] t1]; [|discriminate].
  intros H Hn.
  destruct rt; destruct (disks raid_array) as [d|[|x l]];
    simpl in H; try discriminate H; injection H as <- <-;
    simpl in *; try discriminate Hn; eauto.
Qed.

End RaidStage.

(** ** The planner as a whole *)

Section PlannerFacts.

Variable W : World.

(** [partition] is its three stages in a row. *)
Lemma partition_stages root efi home raid_array ready home' t :
  run (normalise raid_array) = (Ret ready, []) →
  prepare W root home ready [] = (Ret home', t) →
  run (partition W root efi home raid_array) = layout W root efi home' t.
Proof.
  unfold run, partition. intros Hn Hp.
  rewrite (bind_ret _ _ _ _ _ Hn). now rewrite (bind_ret _ _ _ _ _ Hp).
Qed.

Lemma partition_stage_raises root efi home raid_array ready e t :
  run (normalise raid_array) = (Ret ready, []) →
  prepare W root home ready [] = (Raise e, t) →
  run (partition W root efi home raid_array) = (Raise e, t).
Proof.
  unfold run, partition. intros Hn Hp.
  rewrite (bind_ret _ _ _ _ _ Hn). now rewrite (bind_raise _ _ _ _ _ Hp).
Qed.

(** The dictionary returned has the three roles for keys. *)
Lemma return_data_dom home efi part1 part2 part3 :
  dom (__generate_return_data__ home efi part1 part2 part3)
  = {[ "EFI"; "ROOT"; "HOME" ]}.
Proof.
  unfold __generate_return_data__.
  destruct efi, (negb (bool_decide (home = Some "MAKE")));
    rewrite !dom_insert_L, dom_empty_L; set_solver.
Qed.

Lemma return_data_ROOT home efi part1 part2 part3 :
  __generate_return_data__ home efi part1 part2 part3 !! "ROOT"
  = Some (if efi then part2 else part1).
Proof.
  unfold __generate_return_data__.
  destruct efi, (negb (bool_decide (home = Some "MAKE")));
    now simplify_map_eq.
Qed.

Lemma return_data_EFI home efi part1 part2 part3 :
  __generate_return_data__ home efi part1 part2 part3 !! "EFI"
  = Some (if efi then part1 else None).
Proof.
  unfold __generate_return_data__.
  destruct efi, (negb (bool_decide (home = Some "MAKE")));
    now simplify_map_eq.
Qed.

Lemma return_data_HOME home efi part1 part2 part3 :
  home ≠ Some "MAKE" →
  __generate_return_data__ home efi part1 part2 part3 !! "HOME" = Some home.
Proof.
  intros H. unfold __generate_return_data__.
  rewrite bool_decide_eq_false_2 by assumption.
  destruct efi; now simplify_map_eq.
Qed.

Lemma resolve_number size n t :
  resolve size (BNum n) t = (Ret (BNum n), t).
Proof. reflexivity. Qed.

Lemma resolve_percent size s k z t :
  PyStr.last s = Some "%"%char →
  PyStr.int (PyStr.drop_last 1 s) = Some k →
  percent_of size k = Some z →
  resolve size (BStr s) t = (Ret (BNum (NInt z)), t).
Proof.
  intros Hl Hk Hz. unfold resolve. now rewrite Hl, Hk, Hz.
Qed.

Lemma make_root_full (start : num) fs t z :
  percent_of (sectors_to_size (dev_length W) (dev_sectorSize W)) 100
  = Some z →
  __make_root__ W (BNum start) (BStr "100%") fs t =
    (Ret (Some (new_part_path W (t ++ [MakeRoot start (NInt z) fs]))),
     t ++ [MakeRoot start (NInt z) fs]).
Proof.
  intros H. unfold __make_root__.
  rewrite bind_unfold, resolve_number, bind_unfold.
  now rewrite (resolve_percent _ "100%" 100 z).
Qed.

Lemma make_root_all fs t z0 z :
  percent_of (sectors_to_size (dev_length W) (dev_sectorSize W)) 0
  = Some z0 →
  percent_of (sectors_to_size (dev_length W) (dev_sectorSize W)) 100
  = Some z →
  __make_root__ W (BStr "0%") (BStr "100%") fs t =
    (Ret (Some (new_part_path W (t ++ [MakeRoot (NInt z0) (NInt z) fs]))),
     t ++ [MakeRoot (NInt z0) (NInt z) fs]).
Proof.
  intros H0 H. unfold __make_root__.
  rewrite bind_unfold, (resolve_percent _ "0%" 0 z0) by easy.
  rewrite bind_unfold. now rewrite (resolve_percent _ "100%" 100 z).
Qed.

(** On a plannable machine the whole-device layout goes through. *)
Lemma whole_device_returns efi t :
  plannable W →
  ∃ p1 p2 t',
    whole_device W efi (BStr "100%") t = (Ret (Some p1, p2), t')
    ∧ (efi = true → is_Some p2).
Proof.
  intros ([z Hz] & [z0 Hz0] & [n Hn]). unfold whole_device.
  destruct efi.
  - rewrite bind_unfold, make_efi_eq, Hn, bind_unfold.
    rewrite (make_root_full _ _ _ _ Hz). simpl. eauto 6.
  - rewrite bind_unfold, (make_root_all _ _ _ _ Hz0 Hz). simpl.
    do 3 eexists. split; [reflexivity|discriminate].
Qed.

(** Without a home policy both sizes of device get the same layout. *)
Lemma layout_no_home root efi :
  layout W root efi None =
    bind (whole_device W efi (BStr "100%"))
      (λ made, let '(part1, part2) := made in
               ret (__generate_return_data__ None efi part1 part2 None)).
Proof.
  unfold layout. destruct (float_le_Z _ _); reflexivity.
Qed.

End PlannerFacts.

(** C1, as amended: with a RAID request left after normalisation, every
    RAID validation error is raised after the destination device has been
    clobbered and before any partition is created.  An invalid type or a
    wrong member count is raised right after the clobber, with nothing else
    done.  A missing member device file is raised right after the clobber
    when it is missing at the first build, and after the first
    array-creation command when that command has failed and the file is
    missing as the build is forced.  In every other case the RAID stage
    raises nothing but the [OSError] of a command that could not be run. *)
Theorem partition_raid_validation_error
    W root efi home raid_array kind members :
  run (normalise raid_array)
  = (Ret {| raid_type := kind; disks := Members members |}, []) →
  is_none kind = false →
  let ready := {| raid_type := kind; disks := Members members |} in
  (¬ valid_type kind ∨ bad_count kind (length members) →
     run (partition W root efi home raid_array)
     = (Raise ValueError, [Clobber root]))
  ∧ ∀ name,
      raid_types_dict kind = Some name →
      ¬ bad_count kind (length members) →
      let c1 := raid_command members name kind false in
      (forallb (path_exists W [Clobber root]) members = false →
         run (partition W root efi home raid_array)
         = (Raise FileNotFoundError, [Clobber root]))
      ∧ (forallb (path_exists W [Clobber root]) members = true →
         check_call W c1 = Fails →
         forallb (path_exists W [Clobber root; CheckCall c1]) members
         = false →
         run (partition W root efi home raid_array)
         = (Raise FileNotFoundError, [Clobber root; CheckCall c1]))
      ∧ (forallb (path_exists W [Clobber root]) members = true →
         (check_call W c1 = Fails →
          forallb (path_exists W [Clobber root; CheckCall c1]) members
          = true) →
         ∀ e t,
           prepare W root home ready [] = (Raise e, t) →
           e = OSError
           ∧ ∃ c, last t = Some (CheckCall c) ∧ check_call W c = NotRun).
Proof.
  intros Hn Hk ready.
  pose proof (prepare_raid W root home ready members [] Hk eq_refl) as Hp.
  cbn [raid_type ready app] in Hp. cbv zeta in Hp.
  split.
  - intros Hbad. apply (partition_stage_raises W _ _ _ _ ready _ _ Hn).
    rewrite Hp.
    destruct (raid_types_dict kind) as [name|] eqn:Hname; [|reflexivity].
    destruct Hbad as [Hbad|Hbad].
    { exfalso. apply Hbad. now apply raid_types_dict_Some with name. }
    apply count_ok_false in Hbad;
      [|now apply raid_types_dict_Some with name].
    now rewrite Hbad.
  - intros name Hname Hcount c1. rewrite Hname in Hp.
    assert (Hok : count_ok kind (Z.of_nat (length members)) = true).
    { destruct (count_ok _ _) eqn:E; [reflexivity|].
      exfalso. apply Hcount. apply count_ok_false; [|exact E].
      now apply raid_types_dict_Some with name. }
    rewrite Hok in Hp. cbn [negb] in Hp. fold c1 in Hp.
    split; [|split].
    + intros He. apply (partition_stage_raises W _ _ _ _ ready _ _ Hn).
      now rewrite Hp, He.
    + intros He Hfail He'.
      apply (partition_stage_raises W _ _ _ _ ready _ _ Hn).
      now rewrite Hp, He, Hfail, He'.
    + intros He Hretry e t H. rewrite Hp, He in H.
      destruct (check_call W c1) eqn:Hc1; [discriminate H| |].
      * rewrite Hretry in H by reflexivity.
        destruct (check_call W (raid_command members name kind true)) eqn:Hc2;
          try discriminate H.
        injection H as <- <-. split; [reflexivity|]. eauto.
      * injection H as <- <-. split; [reflexivity|]. eauto.
Qed.

Lemma partition_raid_validation_error_witness :
  run (partition Examples.vanishing_64GB "/dev/sda" true (Some "MAKE")
         (Examples.two_slots "RAID1"))
  = (Raise FileNotFoundError,
     [Clobber "/dev/sda";
      CheckCall ["mkfs.btrfs"; "-d"; "raid1"; "-m"; "raid1";
                 "/dev/sdb"; "/dev/sdc"]]).
Proof.
  refine (proj1 (proj2 (proj2 (partition_raid_validation_error
                                 Examples.vanishing_64GB "/dev/sda" true
                                 (Some "MAKE") (Examples.two_slots "RAID1")
                                 (PInt 1) ["/dev/sdb"; "/dev/sdc"]
                                 eq_refl eq_refl)
                          "raid1" eq_refl _)) eq_refl eq_refl eq_refl).
  unfold bad_count. simpl.
  intros [[_ H]|[[H _]|[[H|H] _]]]; [lia | | | ]; discriminate H.
Defined.

(** C1, as stated, fails: RAID10 over two members is refused for its member
    count only after the destination device has been clobbered. *)
Lemma clobber_precedes_raid_validation :
  run (partition Examples.bare_64GB "/dev/sda" false None
         (Examples.two_slots "RAID10"))
  = (Raise ValueError, [Clobber "/dev/sda"]).
Proof. vm_compute. reflexivity. Qed.


(** C8: when a valid RAID array is requested, its members are there and
    the first build fails, the planner runs the build once more with [-f]
    (the members being there still) and then only lays partitions out; if
    the forced build fails too it goes on with the home policy set to none
    and returns a layout whose HOME is null, after the clobber and exactly
    those two commands. *)
Theorem raid_retry_then_fallback
    W root efi home raid_array rtype members name :
  let c1 := raid_command members name rtype false in
  let c2 := raid_command members name rtype true in
  let t0 := [Clobber root; CheckCall c1; CheckCall c2] in
  run (normalise raid_array)
  = (Ret {| raid_type := rtype; disks := Members members |}, []) →
  raid_types_dict rtype = Some name →
  ¬ bad_count rtype (length members) →
  forallb (path_exists W [Clobber root]) members = true →
  check_call W c1 = Fails →
  forallb (path_exists W [Clobber root; CheckCall c1]) members = true →
  run (partition W root efi home raid_array)
  = match check_call W c2 with
    | Succeeds => layout W root efi home t0
    | Fails => layout W root efi None t0
    | NotRun => (Raise OSError, t0)
    end
  ∧ (∀ home', logs planning (layout W root efi home'))
  ∧ (check_call W c2 = Fails → plannable W →
       ∃ m t,
         run (partition W root efi home raid_array) = (Ret m, t0 ++ t)
         ∧ Forall planning t
         ∧ m !! "HOME" = Some None
         ∧ ∃ p, m !! "ROOT" = Some (Some p)).
Proof.
  intros c1 c2 t0 Hn Hname Hcount Hexist Hfail Hstill.
  pose proof (raid_types_dict_Some _ _ Hname) as Hvalid.
  assert (Hok : count_ok rtype (Z.of_nat (length members)) = true).
  { destruct (count_ok _ _) eqn:E; [reflexivity|].
    exfalso. apply Hcount. now apply count_ok_false. }
  assert (Hnone : is_none rtype = false).
  { destruct rtype; [discriminate Hname|reflexivity|reflexivity]. }
  pose proof (prepare_raid W root home
                {| raid_type := rtype; disks := Members members |}
                members [] Hnone eq_refl) as Hprep.
  cbn [raid_type app] in Hprep. cbv zeta in Hprep.
  rewrite Hname, Hok, Hexist in Hprep. cbn [negb] in Hprep.
  fold c1 in Hprep. rewrite Hfail, Hstill in Hprep. fold c2 t0 in Hprep.
  assert (Hrun : run (partition W root efi home raid_array)
                 = match check_call W c2 with
                   | Succeeds => layout W root efi home t0
                   | Fails => layout W root efi None t0
                   | NotRun => (Raise OSError, t0)
                   end).
  { destruct (check_call W c2).
    - now apply partition_stages with (1 := Hn).
    - now apply partition_stages with (1 := Hn).
    - now apply partition_stage_raises with (1 := Hn). }
  split; [exact Hrun|]. split; [intros home'; apply logs_layout|].
  intros Hforced Hplan. rewrite Hrun, Hforced, layout_no_home, bind_unfold.
  destruct (whole_device_returns W efi t0 Hplan) as (p1 & p2 & t' & E & Hefi).
  destruct (logs_whole_device W _ _ _ _ _ E) as (ext & -> & F).
  rewrite E. exists (__generate_return_data__ None efi (Some p1) p2 None), ext.
  split; [reflexivity|]. split; [exact F|]. split.
  - now apply return_data_HOME.
  - rewrite return_data_ROOT. destruct efi; [|eauto].
    destruct (Hefi eq_refl) as [p ->]. eauto.
Qed.

Lemma raid_retry_then_fallback_witness :
  ∃ m t,
    run (partition Examples.failing_64GB "/dev/sda" true (Some "MAKE")
           (Examples.two_slots "RAID1"))
    = (Ret m,
       [Clobber "/dev/sda";
        CheckCall ["mkfs.btrfs"; "-d"; "raid1"; "-m"; "raid1";
                   "/dev/sdb"; "/dev/sdc"];
        CheckCall ["mkfs.btrfs"; "-f"; "-d"; "raid1"; "-m"; "raid1";
                   "/dev/sdb"; "/dev/sdc"]] ++ t)
    ∧ Forall planning t
    ∧ m !! "HOME" = Some None
    ∧ ∃ p, m !! "ROOT" = Some (Some p).
Proof.
  refine (proj2 (proj2 (raid_retry_then_fallback Examples.failing_64GB
                          "/dev/sda" true (Some "MAKE")
                          (Examples.two_slots "RAID1") (PInt 1)
                          ["/dev/sdb"; "/dev/sdc"] "raid1"
                          eq_refl eq_refl _ eq_refl eq_refl eq_refl))
            eq_refl _).
  - unfold bad_count. simpl.
    intros [[_ H]|[[H _]|[[H|H] _]]]; [lia | | | ]; discriminate H.
  - repeat split; eexists; vm_compute; reflexivity.
Defined.



(** ** What a returned layout holds *)

Lemma bind_Ret_inv {A B} (m : M A) (k : A → M B) t b t' :
  bind m k t = (Ret b, t') →
  ∃ a t1, m t = (Ret a, t1) ∧ k a t1 = (Ret b, t').
Proof.
  rewrite bind_unfold. destruct (m t) as [[a|e] t1]; [eauto|discriminate].
Qed.

Section ReturnedLayout.

Variable W : World.

Lemma make_root_Some start end_ fs t p t' :
  __make_root__ W start end_ fs t = (Ret p, t') → is_Some p.
Proof.
  intros H.
  destruct (make_root_cases W start end_ fs t) as [[e E]|(s & e & E)];
    rewrite E in H; [discriminate H|].
  injection H as <- _. eauto.
Qed.

Lemma whole_device_parts efi root_end t p1 p2 t' :
  whole_device W efi root_end t = (Ret (p1, p2), t') →
  is_Some p1 ∧ (efi = true → is_Some p2).
Proof.
  unfold whole_device. destruct efi; intros H.
  - apply bind_Ret_inv in H as (a & t1 & H1 & H).
    rewrite make_efi_eq in H1. injection H1 as <- <-.
    apply bind_Ret_inv in H as (b & t2 & H2 & H).
    apply make_root_Some in H2. injection H as <- <- _. eauto.
  - apply bind_Ret_inv in H as (a & t1 & H1 & H).
    apply make_root_Some in H1.
    apply bind_Ret_inv in H as (b & t2 & H2 & H).
    injection H as <- <- _. split; [assumption|discriminate].
Qed.

Lemma scan_efi_parts l t p1 p2 t' :
  scan_efi W l t = (Ret (p1, p2), t') →
  (is_Some p1 ∧ is_Some p2 ∧ ¬ all_small W l)
  ∨ (p1 = None ∧ p2 = None ∧ t' = t ∧ all_small W l).
Proof.
  induction l as [|[k region] rest IH]; simpl; intros H.
  - injection H as <- <- <-. right. repeat split. constructor.
  - destruct (float_ge_Z (getSize W region) 200) eqn:E.
    + left. apply bind_Ret_inv in H as (a & t1 & H1 & H).
      rewrite make_efi_eq in H1. injection H1 as <- <-.
      apply bind_Ret_inv in H as (b & t2 & H2 & H).
      apply make_root_Some in H2. injection H as <- <- _.
      split; [eauto|]. split; [assumption|].
      intros F. apply Forall_cons in F as [F _]. simpl in F. congruence.
    + destruct (IH H) as [(? & ? & Hbig)|(-> & -> & -> & F)].
      * left. split; [assumption|]. split; [assumption|].
        intros F. apply Forall_cons in F as [_ F]. now apply Hbig.
      * right. repeat split. now constructor.
Qed.

Lemma scan_root_parts l t p1 p2 t' :
  scan_root W l t = (Ret (p1, p2), t') →
  p2 = None
  ∧ ((is_Some p1 ∧ ¬ all_small W l)
     ∨ (p1 = None ∧ t' = t ∧ all_small W l)).
Proof.
  induction l as [|[k region] rest IH]; simpl; intros H.
  - injection H as <- <- <-. split; [reflexivity|].
    right. repeat split. constructor.
  - destruct (float_ge_Z (getSize W region) 200) eqn:E.
    + apply bind_Ret_inv in H as (a & t1 & H1 & H).
      apply make_root_Some in H1.
      apply bind_Ret_inv in H as (b & t2 & H2 & H).
      injection H as <- <- _. split; [reflexivity|]. left.
      split; [assumption|].
      intros F. apply Forall_cons in F as [F _]. simpl in F. congruence.
    + destruct (IH H) as [-> [[? Hbig]|(-> & -> & F)]];
        (split; [reflexivity|]).
      * left. split; [assumption|].
        intros F. apply Forall_cons in F as [_ F]. now apply Hbig.
      * right. repeat split. now constructor.
Qed.

Lemma null_or_make_split home :
  null_or_make home = is_null home || bool_decide (home = Some "MAKE").
Proof.
  destruct home as [h|]; [|reflexivity]. simpl.
  destruct (String.eqb_spec h "MAKE") as [->|Hne].
  - now rewrite bool_decide_eq_true_2.
  - rewrite bool_decide_eq_false_2 by congruence. reflexivity.
Qed.

(** The home policy after the RAID stage is the one given, or none. *)
Lemma prepare_home root home raid_array t home' t' :
  prepare W root home raid_array t = (Ret home', t') →
  home' = home ∨ home' = None.
Proof.
  unfold prepare. intros H.
  destruct (null_or_make home && is_none (raid_type raid_array)).
  { apply bind_Ret_inv in H as (a & t1 & _ & H). injection H as <- _. auto. }
  destruct (negb (is_none (raid_type raid_array))).
  2: { injection H as <- _. auto. }
  apply bind_Ret_inv in H as (a & t1 & _ & H).
  apply bind_Ret_inv in H as ([|] & t2 & _ & H); simpl in H.
  { injection H as <- _. auto. }
  apply bind_Ret_inv in H as ([|] & t3 & _ & H); simpl in H;
    injection H as <- _; auto.
Qed.

(** A layout that returns holds a root, unless there was no room for
    one. *)
Lemma layout_result root efi home t m t' :
  layout W root efi home t = (Ret m, t') →
  dom m = {[ "EFI"; "ROOT"; "HOME" ]}
  ∧ (((∃ p, m !! "ROOT" = Some (Some p)) ∧ ¬ no_room W root home t)
     ∨ (no_room W root home t
        ∧ m !! "ROOT" = Some None ∧ m !! "EFI" = Some None
        ∧ m !! "HOME" = Some home ∧ t' = t)).
Proof.
  unfold layout. intros H.
  assert (Hwhole : ∀ root_end p1 p2 t0 t1 h,
            whole_device W efi root_end t0 = (Ret (p1, p2), t1) →
            ∃ p, __generate_return_data__ home efi p1 p2 h !! "ROOT"
                 = Some (Some p)).
  { intros root_end p1 p2 t0 t1 h H1.
    apply whole_device_parts in H1 as [[q1 ->] H2].
    rewrite return_data_ROOT. destruct efi; [|eauto].
    destruct (H2 eq_refl) as [q2 ->]. eauto. }
  destruct (float_le_Z (device_size W) LIMITER) eqn:Hsmall.
  { apply bind_Ret_inv in H as ([p1 p2] & t1 & H1 & H).
    injection H as <- _. split; [apply return_data_dom|]. left.
    split; [now apply Hwhole with (1 := H1)|].
    intros (Hbig & _). congruence. }
  destruct (bool_decide (home = Some "MAKE")) eqn:Hmake.
  { apply bind_Ret_inv in H as (root_end & t1 & _ & H).
    apply bind_Ret_inv in H as ([[p1 p2] p3] & t2 & H2 & H).
    injection H as <- _. split; [apply return_data_dom|]. left. split.
    - rewrite return_data_ROOT. destruct efi.
      + apply bind_Ret_inv in H2 as (a & t3 & _ & H2).
        apply bind_Ret_inv in H2 as (b & t4 & Hb & H2).
        apply make_root_Some in Hb as [q ->].
        apply bind_Ret_inv in H2 as (c & t5 & _ & H2).
        injection H2 as _ <- _ _. eauto.
      + apply bind_Ret_inv in H2 as (a & t3 & Ha & H2).
        apply make_root_Some in Ha as [q ->].
        apply bind_Ret_inv in H2 as (b & t4 & _ & H2).
        apply bind_Ret_inv in H2 as (c & t5 & _ & H2).
        injection H2 as <- _ _ _. eauto.
    - intros (_ & (h & _ & Hnm & _) & _).
      rewrite null_or_make_split, Hmake, orb_true_r in Hnm.
      discriminate Hnm. }
  destruct (is_null home) eqn:Hnull.
  { apply bind_Ret_inv in H as ([p1 p2] & t1 & H1 & H).
    injection H as <- _. split; [apply return_data_dom|]. left.
    split; [now apply Hwhole with (1 := H1)|].
    intros (_ & (h & _ & Hnm & _) & _).
    rewrite null_or_make_split, Hnull in Hnm. discriminate Hnm. }
  assert (Hnm : null_or_make home = false)
    by now rewrite null_or_make_split, Hnull, Hmake.
  destruct home as [h|]; [|discriminate Hnull]. simpl in H.
  apply bool_decide_eq_false in Hmake.
  destruct (String.eqb_spec root (device_of h)) as [Hdev|Hdev].
  - apply bind_Ret_inv in H as (hist & t1 & Hh & H).
    injection Hh as <- <-.
    apply bind_Ret_inv in H as ([p1 p2] & t1 & H1 & H).
    injection H as <- <-. split; [apply return_data_dom|].
    destruct efi.
    + apply scan_efi_parts in H1 as [(_ & [q ->] & Hbig)|(-> & -> & -> & F)].
      * left. rewrite return_data_ROOT. split; [eauto|].
        intros (_ & _ & F). now apply Hbig.
      * right.
        rewrite return_data_ROOT, return_data_EFI, return_data_HOME
          by assumption.
        repeat split; eauto.
    + apply scan_root_parts in H1 as [-> [[[q ->] Hbig]|(-> & -> & F)]].
      * left. rewrite return_data_ROOT. split; [eauto|].
        intros (_ & _ & F). now apply Hbig.
      * right.
        rewrite return_data_ROOT, return_data_EFI, return_data_HOME
          by assumption.
        repeat split; eauto.
  - apply bind_Ret_inv in H as ([p1 p2] & t1 & H1 & H).
    injection H as <- _. split; [apply return_data_dom|]. left.
    split; [now apply Hwhole with (1 := H1)|].
    intros (_ & (h' & [= <-] & _ & Hroot) & _). contradiction.
Qed.

End ReturnedLayout.

(** C7, as amended: every dictionary the planner returns has exactly the
    keys EFI, ROOT and HOME, and ROOT holds a partition path, except in one
    case: the device is past the limiter as the code measures it, the home
    policy left by the RAID stage is a partition path that the code places
    on the destination device, and no free region on offer reaches 200 MB.
    Then, and only then, ROOT is null; EFI is null too, HOME is the path
    given and nothing was asked of the disk after the RAID stage. *)
Theorem partition_returns_roles W root efi home raid_array m t :
  run (partition W root efi home raid_array) = (Ret m, t) →
  dom m = {[ "EFI"; "ROOT"; "HOME" ]}
  ∧ ∃ ready home' t1,
      run (normalise raid_array) = (Ret ready, [])
      ∧ prepare W root home ready [] = (Ret home', t1)
      ∧ (no_room W root home' t1 →
           home' = home
           ∧ m !! "ROOT" = Some None ∧ m !! "EFI" = Some None
           ∧ m !! "HOME" = Some home ∧ t = t1)
      ∧ (¬ no_room W root home' t1 → ∃ p, m !! "ROOT" = Some (Some p)).
Proof.
  unfold run, partition. intros H.
  apply bind_Ret_inv in H as (ready & t0 & Hn & H).
  pose proof (normalise_quiet _ _ _ _ Hn) as ->.
  apply bind_Ret_inv in H as (home' & t1 & Hp & H).
  apply layout_result in H as [Hdom Hroot]. split; [exact Hdom|].
  exists ready, home', t1. split; [exact Hn|]. split; [exact Hp|].
  destruct Hroot as [[Hset Hno]|(Hno & Hr & He & Hh & ->)].
  - split; [intros Hroom; contradiction | intros _; exact Hset].
  - split; [|intros Hroom; contradiction]. intros _.
    apply prepare_home in Hp as [->| ->]; [auto|].
    destruct Hno as (_ & (h & Hh' & _) & _). discriminate Hh'.
Qed.

Lemma partition_returns_roles_witness :
  dom (__generate_return_data__ (Some "/dev/sda3") false None None None)
  = {[ "EFI"; "ROOT"; "HOME" ]}
  ∧ ∃ ready home' t1,
      run (normalise Examples.no_raid) = (Ret ready, [])
      ∧ prepare (Examples.used_40TB []) "/dev/sda" (Some "/dev/sda3") ready []
        = (Ret home', t1)
      ∧ (no_room (Examples.used_40TB []) "/dev/sda" home' t1 →
           home' = Some "/dev/sda3"
           ∧ __generate_return_data__ (Some "/dev/sda3") false None None None
               !! "ROOT" = Some None
           ∧ __generate_return_data__ (Some "/dev/sda3") false None None None
               !! "EFI" = Some None
           ∧ __generate_return_data__ (Some "/dev/sda3") false None None None
               !! "HOME" = Some (Some "/dev/sda3")
           ∧ [] = t1)
      ∧ (¬ no_room (Examples.used_40TB []) "/dev/sda" home' t1 →
           ∃ p, __generate_return_data__ (Some "/dev/sda3") false None None
                  None !! "ROOT" = Some (Some p)).
Proof.
  apply (partition_returns_roles (Examples.used_40TB []) "/dev/sda" false
           (Some "/dev/sda3") Examples.no_raid).
  vm_compute. reflexivity.
Defined.

(** C7, as stated, fails: with the home partition on the 40 TB destination
    device and no free region, the planner returns with ROOT null. *)
Lemma partition_returns_null_root :
  ∃ m,
    run (partition (Examples.used_40TB []) "/dev/sda" true (Some "/dev/sda3")
           Examples.no_raid) = (Ret m, [])
    ∧ m !! "ROOT" = Some None.
Proof.
  eexists. split; [vm_compute; reflexivity|]. reflexivity.
Qed.

(** ** Partition numbers in device paths *)

Lemma digits_of_uint d acc :
  0 ≤ acc →
  PyStr.digits acc (NilEmpty.string_of_uint d)
  = Some (Z.of_nat (Nat.of_uint_acc d (Z.to_nat acc))).
Proof.
  revert acc. induction d; intros acc Hacc; simpl.
  1: { f_equal. lia. }
  all: match goal with
       | |- context [Z.of_nat (nat_of_ascii ?c) - 48] =>
           let v := eval vm_compute in (Z.of_nat (nat_of_ascii c) - 48) in
           change (Z.of_nat (nat_of_ascii c) - 48) with v
       end;
    rewrite IHd by lia; do 3 f_equal;
    rewrite Nat.tail_mul_spec; lia.
Qed.

Lemma to_uint_nonnil n : Nat.to_uint n ≠ Nil.
Proof.
  rewrite <- (Unsigned.of_to n) at 1. rewrite Unsigned.to_of.
  apply unorm_nonnil.
Qed.

Lemma rstrip_numeral d :
  PyStr.rstrip (NilEmpty.string_of_uint d) = NilEmpty.string_of_uint d.
Proof.
  induction d; [reflexivity|..];
    cbn [NilEmpty.string_of_uint PyStr.rstrip]; rewrite IHd;
    now destruct (NilEmpty.string_of_uint d).
Qed.

Lemma lstrip_numeral d :
  PyStr.lstrip (NilEmpty.string_of_uint d) = NilEmpty.string_of_uint d.
Proof. destruct d; reflexivity. Qed.

(** [int] reads a decimal numeral back. *)
Lemma int_decimal n : PyStr.int (decimal n) = Some (Z.of_nat n).
Proof.
  unfold decimal.
  assert (H : PyStr.int (NilEmpty.string_of_uint (Nat.to_uint n))
              = PyStr.digits 0 (NilEmpty.string_of_uint (Nat.to_uint n))).
  { unfold PyStr.int, PyStr.strip. rewrite rstrip_numeral, lstrip_numeral.
    pose proof (to_uint_nonnil n) as Hn.
    destruct (Nat.to_uint n); [contradiction| reflexivity ..]. }
  rewrite H, digits_of_uint by lia.
  change (Nat.of_uint_acc (Nat.to_uint n) (Z.to_nat 0))
    with (Nat.of_uint (Nat.to_uint n)).
  now rewrite Unsigned.of_to.
Qed.

Lemma prefix_vme_numeral d :
  String.prefix "vme" (NilEmpty.string_of_uint d) = false.
Proof. destruct d; reflexivity. Qed.

Lemma contains_nvme_numeral d :
  PyStr.contains "nvme" (NilEmpty.string_of_uint d) = false.
Proof. induction d; simpl; [reflexivity | assumption ..]. Qed.

(** A path [/dev/sdXN] never mentions nvme. *)
Lemma sd_path_not_nvme x n :
  PyStr.contains "nvme" ("/dev/sd" +:+ String x (decimal n)) = false.
Proof.
  unfold decimal.
  change ("/dev/sd" +:+ String x ?r)
    with (String "/" (String "d" (String "e" (String "v" (String "/"
            (String "s" (String "d" (String x r)))))))).
  cbn -[ascii_dec]. rewrite prefix_vme_numeral, contains_nvme_numeral.
  repeat match goal with
         | |- context [ascii_dec ?a ?b] =>
             destruct (ascii_dec a b) as [E|_]; [try discriminate E|]
         end;
    reflexivity.
Qed.

Lemma py_index_nat {A} (l : list A) (n : nat) :
  py_index l (Z.of_nat n) = if (n <? length l)%nat then Some n else None.
Proof.
  unfold py_index.
  destruct (Nat.ltb_spec n (length l)).
  - rewrite (proj2 (Z.leb_le 0 _)), (proj2 (Z.ltb_lt _ _)) by lia.
    simpl. f_equal. lia.
  - rewrite (proj2 (Z.ltb_ge _ _)) by lia. rewrite andb_false_r.
    rewrite (proj2 (Z.ltb_ge _ 0)) by lia. now rewrite andb_false_r.
Qed.

(** C10: for a path [/dev/sdXN], [make_part_boot] flags the primary
    partition at list index [N], counting from zero, so the (N+1)-th one,
    and fails with [IndexError] when the table holds at most [N] primary
    partitions; for an NVMe path [/dev/nvmeAnBpN] it indexes by the number
    after the [p] in the same way. *)
Theorem make_part_boot_zero_based getPrimaryPartitions n :
  (∀ x,
     let root := "/dev/sd" +:+ String x "" in
     make_part_boot getPrimaryPartitions ("/dev/sd" +:+ String x (decimal n))
     = if (n <? length (getPrimaryPartitions root))%nat
       then Ret (root, alter setFlag_BOOT n (getPrimaryPartitions root))
       else Raise IndexError)
  ∧ (∀ a b,
       let root := "/dev/nvme" +:+ String a (String "n" (String b "")) in
       make_part_boot getPrimaryPartitions
         ("/dev/nvme"
          +:+ String a (String "n" (String b (String "p" (decimal n)))))
       = if (n <? length (getPrimaryPartitions root))%nat
         then Ret (root, alter setFlag_BOOT n (getPrimaryPartitions root))
         else Raise IndexError).
Proof.
  split.
  - intros x root. unfold make_part_boot.
    rewrite sd_path_not_nvme.
    change (PyStr.drop 8 ("/dev/sd" +:+ String x (decimal n)))
      with (decimal n).
    change (PyStr.take 8 ("/dev/sd" +:+ String x (decimal n))) with root.
    rewrite int_decimal, py_index_nat.
    now destruct (n <? length (getPrimaryPartitions root))%nat.
  - intros a b root. unfold make_part_boot.
    change (PyStr.contains "nvme" _) with true. cbv iota.
    change (PyStr.drop 13 _) with (decimal n).
    change (PyStr.take 12 _) with root.
    rewrite int_decimal, py_index_nat.
    now destruct (n <? length (getPrimaryPartitions root))%nat.
Qed.

(** ** The free-space search *)

Section FreeSpace.

Variable W : World.

#[local] Instance key_le_transitive : Transitive key_le.
Proof. intros a b c. unfold key_le. lia. Qed.

#[local] Instance key_le_total : Total key_le.
Proof. intros a b. unfold key_le. lia. Qed.

(** The items come in ascending order of length. *)
Lemma sizes_sorted_ascending sizes :
  StronglySorted key_le (sizes_sorted sizes).
Proof. apply StronglySorted_merge_sort; apply _. Qed.

Lemma sizes_of_lookup data (acc : gmap Z Geometry) k region :
  foldl (λ sizes each, <[g_length each := each]> sizes) acc data !! k
  = Some region →
  (region ∈ data ∧ g_length region = k) ∨ acc !! k = Some region.
Proof.
  revert acc. induction data as [|each rest IH]; intros acc H; simpl in H.
  - now right.
  - apply IH in H as [[Hin Hk]|H].
    + left. split; [now apply list_elem_of_further | exact Hk].
    + destruct (decide (g_length each = k)) as [<-|Hne].
      * rewrite lookup_insert_eq in H. injection H as <-.
        left. split; [apply list_elem_of_here | reflexivity].
      * rewrite lookup_insert_ne in H by assumption. now right.
Qed.

(** Each item is a free region of the table under its own length. *)
Lemma sizes_sorted_item data k region :
  (k, region) ∈ sizes_sorted (sizes_of data) →
  region ∈ data ∧ g_length region = k.
Proof.
  unfold sizes_sorted. rewrite merge_sort_Permutation.
  rewrite elem_of_map_to_list. intros H.
  apply sizes_of_lookup in H as [H|H]; [exact H|].
  now rewrite lookup_empty in H.
Qed.

Lemma sizes_of_keeps data (acc : gmap Z Geometry) k :
  is_Some (acc !! k) →
  is_Some
    (foldl (λ sizes each, <[g_length each := each]> sizes) acc data !! k).
Proof.
  revert acc. induction data as [|each rest IH]; intros acc H; simpl.
  - exact H.
  - apply IH. destruct (decide (g_length each = k)) as [<-|Hne].
    + rewrite lookup_insert_eq. eauto.
    + now rewrite lookup_insert_ne.
Qed.

(** Every length of a free region is on offer. *)
Lemma sizes_sorted_covers data region :
  region ∈ data →
  ∃ region', (g_length region, region') ∈ sizes_sorted (sizes_of data).
Proof.
  intros Hin.
  assert (H : is_Some (sizes_of data !! g_length region)).
  { unfold sizes_of. generalize (∅ : gmap Z Geometry).
    induction data as [|each rest IH]; intros acc.
    - now apply not_elem_of_nil in Hin.
    - apply elem_of_cons in Hin as [->|Hin]; simpl.
      + apply sizes_of_keeps. rewrite lookup_insert_eq. eauto.
      + now apply IH. }
  destruct H as [region' H]. exists region'.
  unfold sizes_sorted. rewrite merge_sort_Permutation.
  now apply elem_of_map_to_list.
Qed.

(** The search settles on the first item that reaches 200 MB, skipping
    the smaller ones before it, or makes nothing. *)
Lemma scan_efi_selects l t r t' :
  scan_efi W l t = (r, t') →
  (all_small W l ∧ t' = t ∧ r = Ret (None, None))
  ∨ (∃ pre k region post,
       l = pre ++ (k, region) :: post
       ∧ all_small W pre
       ∧ float_ge_Z (getSize W region) 200 = true
       ∧ t' = t ++ efi_requests W region).
Proof.
  induction l as [|[k region] rest IH]; simpl; intros H.
  - left. injection H as <- <-. repeat split. constructor.
  - destruct (float_ge_Z (getSize W region) 200) eqn:E.
    + right. exists [], k, region, rest.
      split; [reflexivity|]. split; [constructor|]. split; [exact E|].
      rewrite bind_unfold, make_efi_eq, bind_unfold in H.
      match type of H with
      | context [__make_root__ W ?s ?e ?fs ?t0] =>
          unfold __make_root__ in H;
          rewrite bind_unfold, resolve_number, bind_unfold, resolve_number
            in H
      end.
      simpl in H. injection H as _ <-. now rewrite <- app_assoc.
    + apply IH in H as [(F & -> & ->)|(pre & k' & g & post & -> & F & B & ->)].
      * left. repeat split. now constructor.
      * right. exists ((k, region) :: pre), k', g, post.
        split; [reflexivity|]. split; [now constructor|]. now split.
Qed.

Lemma scan_root_selects l t r t' :
  scan_root W l t = (r, t') →
  (all_small W l ∧ t' = t ∧ r = Ret (None, None))
  ∨ (∃ pre k region post,
       l = pre ++ (k, region) :: post
       ∧ all_small W pre
       ∧ float_ge_Z (getSize W region) 200 = true
       ∧ t' = t ++ root_requests W region).
Proof.
  induction l as [|[k region] rest IH]; simpl; intros H.
  - left. injection H as <- <-. repeat split. constructor.
  - destruct (float_ge_Z (getSize W region) 200) eqn:E.
    + right. exists [], k, region, rest.
      split; [reflexivity|]. split; [constructor|]. split; [exact E|].
      unfold __make_root__ in H.
      rewrite bind_unfold, bind_unfold, resolve_number, bind_unfold,
        resolve_number in H.
      simpl in H. injection H as _ <-. now rewrite <- app_assoc.
    + apply IH in H as [(F & -> & ->)|(pre & k' & g & post & -> & F & B & ->)].
      * left. repeat split. now constructor.
      * right. exists ((k, region) :: pre), k', g, post.
        split; [reflexivity|]. split; [now constructor|]. now split.
Qed.

End FreeSpace.

(** ** The limiter and the sizes compared with it *)

(** C4, at a 64 GB device: [size] is 64,000,000, the device size in
    thousands of bytes, which is compared with [LIMITER], 32,000,000,000
    bytes; the small-disk branch is taken and no home partition is made
    although one was asked for. *)
Lemma small_disk_branch_at_64GB :
  device_size Examples.bare_64GB = 64000000%float
  ∧ LIMITER = 32000000000
  ∧ float_le_Z (device_size Examples.bare_64GB) LIMITER = true
  ∧ run (partition Examples.bare_64GB "/dev/sda" true (Some "MAKE")
           Examples.no_raid)
    = (Ret {[ "EFI" := Some "/dev/sda1"; "ROOT" := Some "/dev/sda2";
              "HOME" := None ]},
       [Clobber "/dev/sda"; MakeEfi (NInt 0) (NInt 200);
        MakeRoot (NInt 201) (NInt 64000) "ext4"]).
Proof. repeat split; vm_compute; reflexivity. Qed.

(** C5, at a 64 GB and at a 200 TB device with home policy MAKE and no
    RAID: on the first, root takes the whole device and no home partition
    follows; on the second, past the threshold, root ends at 70,000 MB where
    35% of the device is 70,000,000 MB. *)
Lemma root_end_at_64GB_and_200TB :
  run (partition Examples.bare_64GB "/dev/sda" false (Some "MAKE")
         Examples.no_raid)
  = (Ret {[ "EFI" := None; "ROOT" := Some "/dev/sda1"; "HOME" := None ]},
     [Clobber "/dev/sda"; MakeRoot (NInt 0) (NInt 64000) "ext4"; RootBoot])
  ∧ run (partition Examples.bare_200TB "/dev/sda" false (Some "MAKE")
           Examples.no_raid)
    = (Ret {[ "EFI" := None; "ROOT" := Some "/dev/sda1";
              "HOME" := Some "/dev/sda2" ]},
       [Clobber "/dev/sda"; MakeRoot (NInt 0) (NInt 70000) "ext4"; RootBoot;
        MakeRoot (NInt 70000) (NInt 200000000) "ext4"]).
Proof. split; vm_compute; reflexivity. Qed.

(** C6, at a 40 TB device holding [/dev/sda3] with one free region of some
    2 GB from sector 2048 on: the EFI partition is asked for from 2048 (the
    region's start sector, read as megabytes) to 201.048576 MB, and root
    from there to 4002047 (the region's end sector, read as megabytes). *)
Lemma free_region_requests_at_40TB :
  run (partition (Examples.used_40TB [Examples.gap]) "/dev/sda" true
         (Some "/dev/sda3") Examples.no_raid)
  = (Ret {[ "EFI" := Some "/dev/sda1"; "ROOT" := Some "/dev/sda2";
            "HOME" := Some "/dev/sda3" ]},
     [MakeEfi (NInt 2048) (NFloat 201.048576);
      MakeRoot (NFloat 201.048576) (NInt 4002047) "ext4"])
  ∧ sectors_to_size (g_start Examples.gap) 512 = 1.048576%float.
Proof. split; vm_compute; reflexivity. Qed.

(** * The code around the planner: properties *)

(** ** The configuration *)

Section SettingsFacts.

Context {V : Type}.

Implicit Types config new_config : gmap string V.

Lemma fill_lookup config key new_config v :
  config !! key = Some v →
  ∃ filled,
    fill config key new_config = inr filled
    ∧ ∀ k, filled !! k
           = match new_config !! k with
             | Some x => Some x
             | None => if decide (k = key) then Some v else None
             end.
Proof.
  intros Hv. unfold fill.
  destruct (new_config !! key) as [x|] eqn:Hkey.
  - exists new_config. split; [reflexivity|]. intros k.
    destruct (new_config !! k) eqn:Hk; [reflexivity|].
    destruct (decide (k = key)) as [->|]; [congruence|reflexivity].
  - rewrite Hv. exists (<[key := v]> new_config). split; [reflexivity|].
    intros k. destruct (decide (k = key)) as [->|Hne].
    + now rewrite lookup_insert_eq, Hkey.
    + rewrite lookup_insert_ne by congruence. now destruct (new_config !! k).
Qed.

Lemma fill_present config key new_config :
  is_Some (new_config !! key) → fill config key new_config = inr new_config.
Proof. intros [x Hx]. unfold fill. now rewrite Hx. Qed.

End SettingsFacts.

Lemma config_keys_spec key :
  key ∈ config_keys
  ↔ key = "ROOT" ∨ key = "HOME" ∨ key = "EFI" ∨ key = "min root size"
    ∨ key = "mdswh".
Proof.
  unfold config_keys. rewrite !elem_of_cons, elem_of_nil. tauto.
Qed.

(** X1: when the settings file has a partitioning block and the built-in
    configuration holds the five keys, loading succeeds; every entry of the
    block is kept as given (also entries under other keys), and each of the
    five keys the block lacks gets the built-in entry, whole. *)
Theorem load_config_merges {V} (config new_config : gmap string V) :
  (∀ key, key ∈ config_keys → is_Some (config !! key)) →
  ∃ merged,
    load_config config (Some (Some new_config)) = inr merged
    ∧ ∀ key,
        merged !! key
        = match new_config !! key with
          | Some v => Some v
          | None =>
              if bool_decide (key ∈ config_keys) then config !! key else None
          end.
Proof.
  intros Hkeys. unfold load_config.
  assert (Hin : ∀ key, key ∈ config_keys → ∃ v, config !! key = Some v).
  { intros key Hk. destruct (Hkeys key Hk) as [v Hv]. eauto. }
  destruct (Hin "ROOT") as [v1 H1]; [apply config_keys_spec; auto 6|].
  destruct (Hin "HOME") as [v2 H2]; [apply config_keys_spec; auto 6|].
  destruct (Hin "EFI") as [v3 H3]; [apply config_keys_spec; auto 6|].
  destruct (Hin "min root size") as [v4 H4];
    [apply config_keys_spec; auto 6|].
  destruct (Hin "mdswh") as [v5 H5]; [apply config_keys_spec; auto 6|].
  destruct (fill_lookup config "ROOT" new_config v1 H1) as (m1 & -> & L1).
  destruct (fill_lookup config "HOME" m1 v2 H2) as (m2 & E2 & L2).
  destruct (fill_lookup config "EFI" m2 v3 H3) as (m3 & E3 & L3).
  destruct (fill_lookup config "min root size" m3 v4 H4) as (m4 & E4 & L4).
  destruct (fill_lookup config "mdswh" m4 v5 H5) as (m5 & E5 & L5).
  cbn [and_then]. rewrite E2. cbn [and_then]. rewrite E3. cbn [and_then].
  rewrite E4. cbn [and_then].
  exists m5. split; [exact E5|]. intros key.
  rewrite L5, L4, L3, L2, L1.
  destruct (new_config !! key); [reflexivity|].
  repeat case_decide; subst; try discriminate;
    first [ rewrite bool_decide_eq_true_2
              by (apply config_keys_spec; auto 6);
            congruence
          | rewrite bool_decide_eq_false_2
              by (rewrite config_keys_spec; intuition congruence);
            reflexivity ].
Qed.

Lemma load_config_merges_witness :
  ∃ merged : gmap string Z,
    load_config
      {[ "ROOT" := 1; "HOME" := 2; "EFI" := 3; "min root size" := 23000;
         "mdswh" := 128 ]}
      (Some (Some {[ "mdswh" := 64; "swap" := 0 ]})) = inr merged
    ∧ ∀ key,
        merged !! key
        = match ({[ "mdswh" := 64; "swap" := 0 ]} : gmap string Z) !! key with
          | Some v => Some v
          | None =>
              if bool_decide (key ∈ config_keys)
              then ({[ "ROOT" := 1; "HOME" := 2; "EFI" := 3;
                       "min root size" := 23000; "mdswh" := 128 ]}
                    : gmap string Z) !! key
              else None
          end.
Proof.
  apply load_config_merges. intros key Hkey.
  apply config_keys_spec in Hkey as [->|[->|[->|[->| ->]]]]; now eexists.
Defined.

(** X2: without a settings file the built-in configuration stands; with a
    settings file that has no partitioning block the module fails with
    [NameError] instead of falling back; and a block that holds all five
    keys becomes the configuration as it is, whatever the built-in one. *)
Theorem load_config_edges {V} (config : gmap string V) :
  load_config config None = inr config
  ∧ load_config config (Some None) = inl NameError
  ∧ ∀ new_config,
      (∀ key, key ∈ config_keys → is_Some (new_config !! key)) →
      load_config config (Some (Some new_config)) = inr new_config.
Proof.
  split; [reflexivity|]. split; [reflexivity|].
  intros new_config Hkeys. unfold load_config.
  assert (Hin : ∀ key,
            key = "ROOT" ∨ key = "HOME" ∨ key = "EFI"
            ∨ key = "min root size" ∨ key = "mdswh" →
            fill config key new_config = inr new_config).
  { intros key Hkey. now apply fill_present, Hkeys, config_keys_spec. }
  rewrite Hin by auto 6. cbn [and_then]. rewrite Hin by auto 6.
  cbn [and_then]. rewrite Hin by auto 6. cbn [and_then].
  rewrite Hin by auto 6. cbn [and_then]. apply Hin. auto 6.
Qed.

(** ** check_disk_state *)

#[global] Instance not_loop_dec (d : BlockDevice) :
  Decision (bd_type d ≠ "loop").
Proof. apply _. Defined.

Lemma drop_loops_filters (front back : list BlockDevice) d :
  drop_loops (length front) (front ++ d :: back)
  = Ret (filter (λ d, bd_type d ≠ "loop") (front ++ [d]) ++ back).
Proof.
  revert d back. induction front as [|d' front IH] using rev_ind;
    intros d back.
  - simpl. destruct (String.eqb_spec (bd_type d) "loop") as [E|E].
    + rewrite filter_cons_False by (intros H; now apply H). reflexivity.
    + now rewrite filter_cons_True.
  - assert (Hlook : ((front ++ [d']) ++ d :: back) !! length (front ++ [d'])
                    = Some d) by now apply list_lookup_middle.
    destruct (length (front ++ [d'])) as [|each] eqn:Hlen.
    { rewrite length_app in Hlen. simpl in Hlen. lia. }
    simpl. simpl in Hlook. rewrite Hlook.
    assert (each = length front) as ->.
    { rewrite length_app in Hlen. simpl in Hlen. lia. }
    rewrite (filter_app _ (front ++ [d']) [d]).
    destruct (String.eqb_spec (bd_type d) "loop") as [E|E].
    + replace (S (length front)) with (length (front ++ [d']))
        by (rewrite length_app; simpl; lia).
      rewrite delete_middle, <- app_assoc. simpl. rewrite IH.
      rewrite filter_cons_False by (intros H; now apply H).
      rewrite filter_nil. now rewrite app_nil_r.
    + rewrite <- (app_assoc front [d'] (d :: back)). simpl. rewrite IH.
      rewrite filter_cons_True by assumption. rewrite filter_nil.
      now rewrite <- app_assoc.
Qed.

(** X3: [check_disk_state] returns exactly the entries of lsblk's list whose
    type is not ["loop"], in lsblk's order; deleting in place while counting
    down never runs out of range. *)
Theorem check_disk_state_drops_loops (blockdevices : list BlockDevice) :
  check_disk_state blockdevices
  = Ret (filter (λ d, bd_type d ≠ "loop") blockdevices).
Proof.
  unfold check_disk_state.
  destruct blockdevices as [|d front] using rev_ind; [reflexivity|].
  clear IHfront. rewrite length_app. simpl.
  replace (length front + 1)%nat with (S (length front)) by lia.
  rewrite drop_loops_filters. now rewrite app_nil_r.
Qed.

(** ** Immersion *)

#[global] Instance panel_dec (p : Process) :
  Decision (proc_name p = "xfce4-panel").
Proof. apply _. Defined.

(** X4: [enable.immersion] first hides the desktop icons, then terminates
    every process named xfce4-panel, in the order psutil lists them, and no
    other process. *)
Theorem enable_immersion_terminates_panels (process_iter : list Process) :
  enable_immersion process_iter
  = Popen ["xfconf-query"; "--channel"; "xfce4-desktop"; "--property";
           "/desktop-icons/style"; "--set"; "0"]
    :: ((λ p, Terminate (proc_pid p))
          <$> filter (λ p, proc_name p = "xfce4-panel") process_iter)
  ∧ ∀ pid,
      Terminate pid ∈ enable_immersion process_iter
      ↔ ∃ p, p ∈ process_iter ∧ proc_pid p = pid
             ∧ proc_name p = "xfce4-panel".
Proof.
  assert (E : terminate_panels process_iter
              = (λ p, Terminate (proc_pid p))
                  <$> filter (λ p, proc_name p = "xfce4-panel") process_iter).
  { induction process_iter as [|p rest IH]; simpl; [reflexivity|].
    destruct (String.eqb_spec (proc_name p) "xfce4-panel") as [Hp|Hp].
    - rewrite filter_cons_True by assumption. simpl. now rewrite IH.
    - now rewrite filter_cons_False. }
  unfold enable_immersion. rewrite E. split; [reflexivity|].
  intros pid. rewrite elem_of_cons, list_elem_of_fmap. split.
  - intros [H|(p & [= ->] & Hp)]; [discriminate H|].
    apply list_elem_of_filter in Hp as [Hname Hin]. eauto.
  - intros (p & Hin & <- & Hname). right. exists p. split; [reflexivity|].
    now apply list_elem_of_filter.
Qed.

(** ** The partition mapper *)

(** X5: [onnextclicked] prints its line exactly when the root entry is
    filled in; with an empty root entry it raises [UnboundLocalError] before
    printing.  In the line printed no field is empty: an empty EFI or home
    entry reads NULL, an empty swap entry FILE, and a filled entry is
    printed as typed. *)
Theorem onnextclicked_line root_text efi_text home_text swap_text :
  (root_text = "" →
     onnextclicked root_text efi_text home_text swap_text
     = inl UnboundLocalError)
  ∧ (root_text ≠ "" →
       ∃ efi home swap,
         onnextclicked root_text efi_text home_text swap_text
         = inr ("ROOT:" +:+ root_text +:+ ",EFI:" +:+ efi +:+ ",HOME:"
                +:+ home +:+ ",SWAP:" +:+ swap)
         ∧ efi ≠ "" ∧ home ≠ "" ∧ swap ≠ ""
         ∧ efi = (if decide (efi_text = "") then "NULL" else efi_text)
         ∧ home = (if decide (home_text = "") then "NULL" else home_text)
         ∧ swap = (if decide (swap_text = "") then "FILE" else swap_text)).
Proof.
  unfold onnextclicked. split.
  - intros ->. reflexivity.
  - intros Hroot. apply String.eqb_neq in Hroot. rewrite Hroot.
    do 3 eexists. split; [reflexivity|].
    destruct (String.eqb_spec efi_text "") as [->|He],
             (String.eqb_spec home_text "") as [->|Hh],
             (String.eqb_spec swap_text "") as [->|Hs];
      repeat case_decide; try congruence; repeat split; congruence.
Qed.

(** ** Devices of partition paths *)

Lemma take_app_more (front back : string) n :
  PyStr.take (String.length front + n) (front +:+ back)
  = front +:+ PyStr.take n back.
Proof.
  induction front as [|c front IH]; simpl; [reflexivity|]. now rewrite IH.
Qed.

Lemma length_append (front back : string) :
  String.length (front +:+ back)
  = (String.length front + String.length back)%nat.
Proof.
  induction front as [|c front IH]; simpl; [reflexivity|]. now rewrite IH.
Qed.

Lemma append_nil_inv (front back : string) :
  front +:+ back = front → back = "".
Proof.
  induction front as [|c front IH]; simpl; [auto|].
  intros [= H]. auto.
Qed.

(** Cutting the last character off [/dev/sdX...] leaves the device exactly
    when one character follows it. *)
Lemma sd_device_cut x s :
  PyStr.contains "nvme" ("/dev/sd" +:+ String x s) = false →
  device_of ("/dev/sd" +:+ String x s)
  = delete_part_device ("/dev/sd" +:+ String x s)
  ∧ (delete_part_device ("/dev/sd" +:+ String x s)
     = "/dev/sd" +:+ String x ""
     ↔ String.length s = 1%nat).
Proof.
  intros Hsd. unfold device_of, delete_part_device. rewrite Hsd.
  split; [reflexivity|]. unfold PyStr.drop_last.
  change ("/dev/sd" +:+ String x s) with (("/dev/sd" +:+ String x "") +:+ s).
  rewrite length_append.
  destruct s as [|c s]; simpl String.length.
  - split; [intros H; discriminate H | intros H; discriminate H].
  - replace (8 + S (String.length s) - 1)%nat
      with (String.length ("/dev/sd" +:+ String x "") + String.length s)%nat
      by (simpl; lia).
    rewrite take_app_more. split.
    + intros H. apply append_nil_inv in H.
      destruct s; [reflexivity|discriminate H].
    + intros [= H]. destruct s; [|discriminate H]. reflexivity.
Qed.

(** X6: [size_of_part] and [make_part_boot] take the first 8 characters of
    a path [/dev/sdX...] (12 of an NVMe path [/dev/nvmeAnBp...]) for the
    device, whatever follows; [delete_part] and the planner's same-device
    test cut one character (two for NVMe) off the end, and so find that
    device exactly when a single character follows. *)
Theorem partition_path_devices x s :
  PyStr.contains "nvme" ("/dev/sd" +:+ String x s) = false →
  (size_of_part_root ("/dev/sd" +:+ String x s) = "/dev/sd" +:+ String x ""
   ∧ device_of ("/dev/sd" +:+ String x s)
     = delete_part_device ("/dev/sd" +:+ String x s)
   ∧ (delete_part_device ("/dev/sd" +:+ String x s)
      = "/dev/sd" +:+ String x ""
      ↔ String.length s = 1%nat))
  ∧ ∀ a b,
      let root := "/dev/nvme" +:+ String a (String "n" (String b "")) in
      size_of_part_root (root +:+ String "p" s) = root
      ∧ (delete_part_device (root +:+ String "p" s) = root
         ↔ String.length s = 1%nat).
Proof.
  intros Hsd. split.
  - split; [|now apply sd_device_cut].
    unfold size_of_part_root. now rewrite Hsd.
  - intros a b root. unfold size_of_part_root, delete_part_device.
    change (PyStr.contains "nvme" (root +:+ String "p" s)) with true.
    cbv iota. split; [reflexivity|].
    unfold PyStr.drop_last.
    change (root +:+ String "p" s) with ((root +:+ "p") +:+ s).
    rewrite length_append.
    destruct s as [|c s]; simpl String.length.
    + split; [intros H; discriminate H | intros H; discriminate H].
    + replace (13 + S (String.length s) - 2)%nat
        with (String.length root + String.length s)%nat by (simpl; lia).
      change ((root +:+ "p") +:+ String c s)
        with (root +:+ String "p" (String c s)).
      rewrite take_app_more. split.
      * intros H. apply append_nil_inv in H.
        destruct s; [reflexivity|discriminate H].
      * intros [= H]. destruct s; [|discriminate H]. reflexivity.
Qed.

Lemma partition_path_devices_witness :
  delete_part_device "/dev/sda10" = "/dev/sda1"
  ∧ size_of_part_root "/dev/sda10" = "/dev/sda"
  ∧ ¬ String.length "10" = 1%nat.
Proof.
  destruct (partition_path_devices "a" "10" eq_refl) as [(Hroot & _ & Hdel) _].
  split; [reflexivity|]. split; [exact Hroot|]. discriminate.
Defined.

(** ** make_part_boot *)

(** X8: a path that stops at the device, [/dev/sdX], [/dev/nvmeAnB] or
    [/dev/nvmeAnBp], has no partition number to read: [make_part_boot]
    raises [ValueError] whatever the partition table holds. *)
Theorem make_part_boot_needs_number getPrimaryPartitions :
  (∀ x,
     make_part_boot getPrimaryPartitions ("/dev/sd" +:+ String x "")
     = Raise ValueError)
  ∧ ∀ a b,
      make_part_boot getPrimaryPartitions
        ("/dev/nvme" +:+ String a (String "n" (String b "")))
      = Raise ValueError
      ∧ make_part_boot getPrimaryPartitions
          ("/dev/nvme" +:+ String a (String "n" (String b "p")))
        = Raise ValueError.
Proof.
  split.
  - intros x. unfold make_part_boot.
    assert (E : PyStr.contains "nvme" ("/dev/sd" +:+ String x "") = false).
    { change ("/dev/sd" +:+ String x "")
        with (String "/" (String "d" (String "e" (String "v" (String "/"
                (String "s" (String "d" (String x "")))))))).
      cbn -[ascii_dec].
      repeat match goal with
             | |- context [ascii_dec ?a ?b] =>
                 destruct (ascii_dec a b) as [E|_]; [try discriminate E|]
             end;
        reflexivity. }
    rewrite E. reflexivity.
  - intros a b. split; reflexivity.
Qed.

(** ** The order of the planner's operations *)

Section Order.

Variable W : World.

Lemma logs_make_root_if (P : event → Prop) start end_ fs :
  (∀ s e, P (MakeRoot s e fs)) → logs P (__make_root__ W start end_ fs).
Proof.
  intros HP t r t' H.
  destruct (make_root_cases W start end_ fs t) as [[e E]|(s & e & E)];
    rewrite E in H; injection H as <- <-.
  - exists []. now rewrite app_nil_r.
  - eexists. split; [reflexivity|]. repeat constructor. apply HP.
Qed.

Lemma logs_get_min_root_size_any (P : event → Prop) swap ram unit bytes :
  logs P (get_min_root_size W swap ram unit bytes).
Proof. unfold get_min_root_size. repeat log_step. Qed.

Lemma fits_root efi s e fs : fits efi (MakeRoot s e fs).
Proof. exact I. Qed.

Lemma logs_make_efi_fits start end_ :
  logs (fits true) (__make_efi__ W start end_).
Proof. unfold __make_efi__. repeat log_step. Qed.

Lemma logs_make_root_boot_fits : logs (fits false) __make_root_boot__.
Proof. now apply logs_emit. Qed.

Hint Resolve logs_make_root_if logs_get_min_root_size_any fits_root
  logs_make_efi_fits logs_make_root_boot_fits : logs.

Lemma logs_whole_device_fits efi root_end :
  logs (fits efi) (whole_device W efi root_end).
Proof.
  unfold whole_device. destruct efi; repeat (log_step; auto with logs).
Qed.

Lemma logs_scan_efi_fits l : logs (fits true) (scan_efi W l).
Proof.
  induction l as [|[k region] rest IH]; simpl;
    repeat (log_step; auto with logs).
Qed.

Lemma logs_scan_root_fits l : logs (fits false) (scan_root W l).
Proof.
  induction l as [|[k region] rest IH]; simpl;
    repeat (log_step; auto with logs).
Qed.

Hint Resolve logs_whole_device_fits logs_scan_efi_fits logs_scan_root_fits
  : logs.

(** A layout asks only for what fits the boot mode. *)
Lemma logs_layout_fits root efi home : logs (fits efi) (layout W root efi home).
Proof.
  unfold layout, __make_home__.
  destruct (float_le_Z _ _); [repeat (log_step; auto with logs)|].
  destruct (bool_decide _).
  { destruct efi; repeat (log_step; auto with logs). }
  destruct (is_null home); [repeat (log_step; auto with logs)|].
  destruct (String.eqb _ _); [|repeat (log_step; auto with logs)].
  destruct efi; repeat (log_step; auto with logs).
Qed.

Lemma logs_make_raid_array disks raid_type force :
  logs command (make_raid_array W disks raid_type force).
Proof.
  intros t r t' H. rewrite make_raid_array_eq in H.
  repeat match type of H with
         | context [match ?x with _ => _ end] => destruct x
         end;
    cbv zeta in H; injection H as <- <-;
    first [ exists []; now rewrite app_nil_r
          | eexists; split; [reflexivity|]; now repeat constructor ].
Qed.

(** What the RAID stage logs: nothing, or the clobber and then only
    commands. *)
Lemma prepare_log root home ready t r t' :
  prepare W root home ready t = (r, t') →
  (null_or_make home = false ∧ is_none (raid_type ready) = true ∧ t' = t)
  ∨ ((null_or_make home = true ∨ is_none (raid_type ready) = false)
     ∧ ∃ cmds, t' = t ++ Clobber root :: cmds ∧ Forall command cmds).
Proof.
  unfold prepare, clobber_disk. intros H.
  destruct (is_none (raid_type ready)) eqn:Hnone.
  - destruct (null_or_make home) eqn:Hhome; simpl in H.
    + right. split; [now left|]. exists [].
      rewrite bind_unfold in H. simpl in H. injection H as _ <-.
      split; [reflexivity|constructor].
    + left. injection H as _ <-. auto.
  - right. split; [now right|]. rewrite andb_false_r in H. simpl in H.
    rewrite bind_unfold in H. simpl in H.
    match type of H with
    | ?m _ = _ => assert (L : logs command m)
    end.
    { repeat (log_step; auto using logs_make_raid_array). }
    apply L in H as (cmds & -> & F). exists cmds.
    now rewrite <- app_assoc.
Qed.

(** The log of a run, once the request is normalised. *)
Lemma partition_log root efi home raid_array ready r t :
  run (normalise raid_array) = (Ret ready, []) →
  run (partition W root efi home raid_array) = (r, t) →
  (null_or_make home = false ∧ is_none (raid_type ready) = true
   ∧ Forall (fits efi) t)
  ∨ ((null_or_make home = true ∨ is_none (raid_type ready) = false)
     ∧ ∃ cmds ext,
         t = Clobber root :: cmds ++ ext
         ∧ Forall command cmds ∧ Forall (fits efi) ext).
Proof.
  intros Hn H. unfold run, partition in H.
  rewrite (bind_ret _ _ _ _ _ Hn), bind_unfold in H.
  destruct (prepare W root home ready []) as [[home'|e] t1] eqn:Hp.
  - apply logs_layout_fits in H as (ext & -> & F).
    apply prepare_log in Hp as [(? & ? & ->)|(? & cmds & -> & Fc)]; eauto 8.
  - injection H as <- <-.
    apply prepare_log in Hp as [(? & ? & ->)|(? & cmds & -> & Fc)].
    + left. repeat split; auto.
    + right. split; [assumption|]. exists cmds, [].
      rewrite app_nil_r. repeat split; auto.
Qed.

(** Whatever a layout returns was put together by
    [__generate_return_data__] for the same boot mode and home policy. *)
Lemma layout_returns_data root efi home t m t' :
  layout W root efi home t = (Ret m, t') →
  ∃ part1 part2 part3,
    m = __generate_return_data__ home efi part1 part2 part3.
Proof.
  unfold layout. intros H.
  repeat match type of H with
         | context [if ?b then _ else _] => destruct b
         end;
    repeat match type of H with
           | bind _ _ _ = _ =>
               apply bind_Ret_inv in H as (? & ? & _ & H)
           | (let '(_, _) := ?x in _) _ = _ => destruct x
           end;
    try (injection H as <- _; eauto).
Qed.

End Order.

(** X9: with a home partition to keep (a path, not null and not MAKE) and
    no RAID request left after normalisation, the planner never clobbers
    the destination device and runs no command: all it asks for are
    partitions and flags that fit the boot mode. *)
Theorem partition_keeps_existing_table
    W root efi home raid_array ready r t :
  run (normalise raid_array) = (Ret ready, []) →
  null_or_make home = false →
  is_none (raid_type ready) = true →
  run (partition W root efi home raid_array) = (r, t) →
  Forall (fits efi) t ∧ ∀ device, Clobber device ∉ t.
Proof.
  intros Hn Hhome Hnone H.
  apply (partition_log W _ _ _ _ _ _ _ Hn) in H
    as [(_ & _ & F)|([E|E] & _)]; try congruence.
  split; [exact F|]. intros device Hin.
  rewrite Forall_forall in F. exact (F _ Hin).
Qed.

Lemma partition_keeps_existing_table_witness :
  Forall (fits true)
    [MakeEfi (NInt 0) (NInt 200); MakeRoot (NInt 201) (NInt 64000) "ext4"]
  ∧ ∀ device,
      Clobber device
      ∉ [MakeEfi (NInt 0) (NInt 200); MakeRoot (NInt 201) (NInt 64000) "ext4"].
Proof.
  apply (partition_keeps_existing_table Examples.bare_64GB "/dev/sda" true
           (Some "/dev/sdb1") Examples.no_raid Examples.no_raid
           (Ret {[ "EFI" := Some "/dev/sda1"; "ROOT" := Some "/dev/sda2";
                   "HOME" := Some "/dev/sdb1" ]}));
    vm_compute; reflexivity.
Defined.

(** X10: with a home policy of none or MAKE, or with a RAID request left
    after normalisation, the planner clobbers the destination device first
    and once, runs the array commands next, and only then asks for
    partitions, each fitting the boot mode. *)
Theorem partition_clobbers_first
    W root efi home raid_array ready r t :
  run (normalise raid_array) = (Ret ready, []) →
  null_or_make home = true ∨ is_none (raid_type ready) = false →
  run (partition W root efi home raid_array) = (r, t) →
  ∃ cmds ext,
    t = Clobber root :: cmds ++ ext
    ∧ Forall command cmds
    ∧ Forall (fits efi) ext.
Proof.
  intros Hn Hcond H.
  apply (partition_log W _ _ _ _ _ _ _ Hn) in H
    as [(E1 & E2 & _)|(_ & H)]; [|exact H].
  destruct Hcond; congruence.
Qed.

Lemma partition_clobbers_first_witness :
  ∃ cmds ext,
    [Clobber "/dev/sda"; MakeRoot (NInt 0) (NInt 64000) "ext4"; RootBoot]
    = Clobber "/dev/sda" :: cmds ++ ext
    ∧ Forall command cmds
    ∧ Forall (fits false) ext.
Proof.
  apply (partition_clobbers_first Examples.bare_64GB "/dev/sda" false None
           Examples.no_raid Examples.no_raid
           (Ret {[ "EFI" := None; "ROOT" := Some "/dev/sda1";
                   "HOME" := None ]})).
  - reflexivity.
  - now left.
  - vm_compute. reflexivity.
Defined.

(** X11: in every run of the planner an EFI partition is asked for only
    when the system booted in UEFI mode and the boot flag is put on root
    only when it did not; a dictionary returned on a BIOS system has EFI
    null. *)
Theorem partition_follows_boot_mode W root efi home raid_array r t :
  run (partition W root efi home raid_array) = (r, t) →
  (∀ start end_, MakeEfi start end_ ∈ t → efi = true)
  ∧ (RootBoot ∈ t → efi = false)
  ∧ ∀ m, r = Ret m → efi = false → m !! "EFI" = Some None.
Proof.
  intros H.
  assert (Hsplit : ∃ pre ext,
            t = pre ++ ext
            ∧ Forall (λ e, e = Clobber root ∨ command e) pre
            ∧ Forall (fits efi) ext
            ∧ ∀ m, r = Ret m → ∃ h p1 p2 p3,
                m = __generate_return_data__ h efi p1 p2 p3).
  { unfold run, partition in H. rewrite bind_unfold in H.
    destruct (normalise raid_array []) as [[ready|e] t0] eqn:Hn;
      pose proof (normalise_quiet _ _ _ _ Hn) as ->.
    2: { injection H as <- <-. exists [], [].
         split; [reflexivity|]. split; [constructor|].
         split; [constructor|discriminate]. }
    rewrite bind_unfold in H.
    assert (Hpre : ∀ r1 t1, prepare W root home ready [] = (r1, t1) →
                     Forall (λ e, e = Clobber root ∨ command e) t1).
    { intros r1 t1 Hp.
      apply prepare_log in Hp as [(_ & _ & ->)|(_ & cmds & -> & Fc)];
        [constructor|].
      constructor; [auto|]. eapply Forall_impl; [exact Fc|]. auto. }
    destruct (prepare W root home ready []) as [[home'|e] t1] eqn:Hp;
      specialize (Hpre _ _ eq_refl).
    - pose proof H as Hl. apply logs_layout_fits in Hl as (ext & -> & F).
      exists t1, ext. split; [reflexivity|]. split; [exact Hpre|].
      split; [exact F|]. intros m ->.
      apply layout_returns_data in H as (p1 & p2 & p3 & ->). eauto.
    - injection H as <- <-. exists t1, []. rewrite app_nil_r.
      split; [reflexivity|]. split; [exact Hpre|].
      split; [constructor|discriminate]. }
  destruct Hsplit as (pre & ext & -> & Fpre & Fext & Hret).
  rewrite Forall_forall in Fpre, Fext.
  assert (Hfits : ∀ e, e ∈ pre ++ ext → planning e → fits efi e).
  { intros e Hin Hplan. apply elem_of_app in Hin as [Hin|Hin]; [|auto].
    destruct (Fpre _ Hin) as [->|Hc]; [contradiction|].
    destruct e; contradiction. }
  split; [|split].
  - intros s e Hin. exact (Hfits _ Hin I).
  - intros Hin. exact (Hfits _ Hin I).
  - intros m -> ->. destruct (Hret m eq_refl) as (h & p1 & p2 & p3 & ->).
    apply return_data_EFI.
Qed.

Lemma partition_follows_boot_mode_witness :
  (∀ start end_,
     MakeEfi start end_
     ∈ [Clobber "/dev/sda"; MakeRoot (NInt 0) (NInt 64000) "ext4"; RootBoot] →
     false = true)
  ∧ (RootBoot
     ∈ [Clobber "/dev/sda"; MakeRoot (NInt 0) (NInt 64000) "ext4"; RootBoot] →
     false = false)
  ∧ ∀ m,
      Ret ({[ "EFI" := None; "ROOT" := Some "/dev/sda1"; "HOME" := None ]}
           : gmap string path) = Ret m →
      false = false → m !! "EFI" = Some None.
Proof.
  apply (partition_follows_boot_mode Examples.bare_64GB "/dev/sda" false None
           Examples.no_raid).
  vm_compute. reflexivity.
Defined.

(** ** RAID requests the planner cannot serve *)

Section Requests.

Variable W : World.

(** The type a request is left with: none, an int the planner converted
    to, or a string it does not convert. *)
Lemma check_raid_type_kinds raid_array t kind t' :
  check_raid_type raid_array t = (Ret kind, t') →
  kind = PNone
  ∨ (∃ z, kind = PInt z)
  ∨ (∃ s, kind = PStr s ∧ ¬ converted s).
Proof.
  unfold check_raid_type.
  destruct (raid_type raid_array) as [|s|z] eqn:Hrt; simpl.
  - intros [= <- _]. now left.
  - assert (Hoem : ¬ converted "OEM").
    { unfold converted. simpl. intros [H|[H|H]]; discriminate H. }
    destruct (String.eqb_spec s "OEM") as [->|Hs]; simpl.
    { intros [= <- _]. eauto. }
    rewrite bind_unfold. unfold convert_raid_type.
    assert (Hkeep : ∀ d rt, (rt = PNone ∨ (∃ z, rt = PInt z)
                             ∨ ∃ s, rt = PStr s ∧ ¬ converted s) →
                     check_slots d rt = PNone
                     ∨ (∃ z, check_slots d rt = PInt z)
                     ∨ ∃ s, check_slots d rt = PStr s ∧ ¬ converted s).
    { intros d. induction d as [|[k v] rest IH]; intros rt Hrt'; simpl;
        [exact Hrt'|].
      destruct (in_1_2 k && bool_decide (v = None)); apply IH; auto. }
    destruct (String.eqb_spec (PyStr.lower s) "raid0");
      [|destruct (String.eqb_spec (PyStr.lower s) "raid1");
        [|destruct (String.eqb_spec (PyStr.lower s) "raid10")]];
      simpl; destruct (disks raid_array) as [d|l];
      try destruct (existsb in_1_2 l); intros H;
      try discriminate H; injection H as <- _;
      try apply Hkeep; eauto.
    all: right; right; exists s; split; [reflexivity|].
    all: unfold converted; tauto.
  - rewrite bind_unfold. simpl. discriminate.
Qed.

End Requests.

(** X12: a RAID type given as a string that the planner does not convert,
    that is ["OEM"] or, with slots 1 and 2 set, any string other than raid0,
    raid1 and raid10 in any case (so also RAID5 and RAID6), is handed to
    [make_raid_array] as it is: the planner clobbers the destination device
    and then raises [ValueError]. *)
Theorem partition_rejects_unconverted W root efi home s d :
  s = "OEM"
  ∨ (¬ converted s ∧ ∀ each, each = "1" ∨ each = "2" → (each, None) ∉ d) →
  run (partition W root efi home {| raid_type := PStr s; disks := Slots d |})
  = (Raise ValueError, [Clobber root]).
Proof.
  intros H.
  assert (Hn : run (normalise {| raid_type := PStr s; disks := Slots d |})
               = (Ret {| raid_type := PStr s;
                         disks := Members (member_list d) |}, [])).
  { unfold run, normalise, check_raid_type. cbn [raid_type disks recognised].
    destruct H as [->|[Hconv Hset]]; [reflexivity|].
    destruct (String.eqb_spec s "OEM") as [->|Hs]; [reflexivity|].
    cbn [negb]. rewrite bind_unfold, bind_unfold.
    rewrite convert_unconverted by assumption.
    rewrite check_slots_set; [reflexivity|].
    intros each He. apply Hset. unfold in_1_2 in He.
    apply orb_true_iff in He as [He|He]; apply String.eqb_eq in He; auto. }
  apply (partition_stage_raises W _ _ _ _ _ _ _ Hn).
  rewrite (prepare_raid W _ _ _ (member_list d)) by reflexivity.
  reflexivity.
Qed.

Lemma partition_rejects_unconverted_witness :
  run (partition Examples.bare_64GB "/dev/sda" true None
         (Examples.two_slots "RAID5"))
  = (Raise ValueError, [Clobber "/dev/sda"]).
Proof.
  apply partition_rejects_unconverted. right. split.
  - unfold converted. simpl. intros [H|[H|H]]; discriminate H.
  - intros each [-> | ->] Hin;
      repeat (apply elem_of_cons in Hin as [Hin|Hin]; [discriminate Hin|]);
      now apply not_elem_of_nil in Hin.
Defined.

(** X13: the planner leaves [raid_array] changed in place, and what it
    leaves is seldom fit for a second call.  A RAID type that is an int,
    which is what a kept raid0, raid1 or raid10 request is converted to,
    raises [AttributeError] before anything is done; a request left with a
    string for a type and at least one member raises [TypeError]; a request
    left without a type, or with a string for a type and no member, goes
    through normalisation unchanged.  These are all the cases. *)
Theorem raid_array_not_reusable W root efi home :
  (∀ z members,
     run (partition W root efi home {| raid_type := PInt z; disks := members |})
     = (Raise AttributeError, []))
  ∧ ∀ raid_array ready,
      run (normalise raid_array) = (Ret ready, []) →
      (is_none (raid_type ready) = true
       ∨ (∃ s, raid_type ready = PStr s ∧ disks ready = Members []) →
       run (normalise ready) = (Ret ready, []))
      ∧ (∀ s,
           raid_type ready = PStr s →
           disks ready ≠ Members [] →
           run (partition W root efi home ready) = (Raise TypeError, []))
      ∧ (is_none (raid_type ready) = true
         ∨ (∃ z, raid_type ready = PInt z)
         ∨ ∃ s members,
             raid_type ready = PStr s ∧ disks ready = Members members).
Proof.
  split; [reflexivity|].
  intros raid_array ready Hn.
  assert (Hkind : raid_type ready = PNone
                  ∨ (∃ z, raid_type ready = PInt z)
                  ∨ ∃ s, raid_type ready = PStr s ∧ ¬ converted s).
  { unfold run, normalise in Hn. rewrite bind_unfold in Hn.
    destruct (check_raid_type raid_array []) as [[rt|e] t1] eqn:Hc;
      [|discriminate Hn].
    apply check_raid_type_kinds in Hc as Hkind.
    assert (Hrt : raid_type ready = rt).
    { destruct rt; destruct (disks raid_array) as [d|[|x l']];
        simpl in Hn; try discriminate Hn; now injection Hn as <- _. }
    now rewrite Hrt. }
  assert (Hstr : ∀ s, raid_type ready = PStr s →
                 ¬ converted s ∧ ∃ members, disks ready = Members members).
  { intros s Hs. split.
    - destruct Hkind as [H|[[z H]|(s' & H & Hs')]]; congruence.
    - apply (normalise_members _ _ _ _ Hn). now rewrite Hs. }
  assert (Hcheck : ∀ s l,
            ¬ converted s → existsb in_1_2 l = false →
            check_raid_type {| raid_type := PStr s; disks := Members l |} []
            = (Ret (PStr s), [])).
  { intros s l Hs Hl. unfold check_raid_type. cbn [raid_type disks recognised].
    destruct (negb (String.eqb s "OEM")); [|reflexivity].
    rewrite bind_unfold, convert_unconverted by assumption. now rewrite Hl. }
  split; [|split].
  - intros [Hnone|(s & Hs & Hd)].
    + destruct ready as [rt ds]. simpl in Hnone.
      destruct rt; try discriminate Hnone. reflexivity.
    + destruct ready as [rt ds]. simpl in Hs, Hd. subst rt ds.
      destruct (Hstr s eq_refl) as [Hconv _].
      unfold run, normalise. rewrite bind_unfold, Hcheck by easy. reflexivity.
  - intros s Hs Hd. destruct (Hstr s Hs) as [Hconv [l Hl]].
    destruct ready as [rt ds]. simpl in Hs, Hl, Hd. subst rt ds.
    destruct l as [|x l]; [congruence|].
    unfold run, partition, normalise. rewrite !bind_unfold.
    destruct (existsb in_1_2 (x :: l)) eqn:Hex.
    + unfold check_raid_type. cbn [raid_type disks recognised].
      destruct (negb (String.eqb s "OEM")); [|reflexivity].
      rewrite bind_unfold, convert_unconverted by assumption.
      now rewrite Hex.
    + now rewrite Hcheck.
  - destruct Hkind as [H|[H|(s & Hs & _)]].
    + left. now rewrite H.
    + now (right; left).
    + right. right. destruct (Hstr s Hs) as [_ [l Hl]]. eauto.
Qed.

(** ** The home entry of a returned layout *)

Section HomeEntry.

Variable W : World.

(** The RAID stage changes the home policy only to none, and only after a
    command was run. *)
Lemma prepare_home_change root home ready t home' t' :
  prepare W root home ready t = (Ret home', t') →
  home' = home ∨ (home' = None ∧ ∃ c, CheckCall c ∈ t').
Proof.
  unfold prepare. intros H.
  destruct (null_or_make home && is_none (raid_type ready)).
  { apply bind_Ret_inv in H as (a & t1 & _ & H). injection H as <- _. auto. }
  destruct (negb (is_none (raid_type ready))).
  2: { injection H as <- _. auto. }
  apply bind_Ret_inv in H as (a & t1 & _ & H).
  apply bind_Ret_inv in H as ([|] & t2 & _ & H); simpl in H.
  { injection H as <- _. auto. }
  apply bind_Ret_inv in H as ([|] & t3 & Hforced & H); simpl in H;
    injection H as <- <-; [auto|].
  right. split; [reflexivity|].
  rewrite make_raid_array_eq in Hforced.
  repeat match type of Hforced with
         | context [match ?x with _ => _ end] => destruct x
         end;
    cbv zeta in Hforced; try discriminate Hforced;
    injection Hforced as _ <-; eexists; apply elem_of_app; right;
    apply list_elem_of_here.
Qed.

End HomeEntry.

(** X14: in a returned layout, a home policy other than MAKE comes back as
    the HOME entry: exactly as given (a partition path verbatim, but also
    the strings NULL and null) unless an array command was run, and
    otherwise as given or null. *)
Theorem partition_home_entry W root efi home raid_array m t :
  run (partition W root efi home raid_array) = (Ret m, t) →
  home ≠ Some "MAKE" →
  (m !! "HOME" = Some home ∨ m !! "HOME" = Some None)
  ∧ ((∀ c, CheckCall c ∉ t) → m !! "HOME" = Some home).
Proof.
  unfold run, partition. intros H Hmake.
  apply bind_Ret_inv in H as (ready & t1 & _ & H).
  apply bind_Ret_inv in H as (home' & t2 & Hp & H).
  pose proof H as Hlog. apply logs_layout in Hlog as (ext & -> & _).
  apply layout_returns_data in H as (p1 & p2 & p3 & ->).
  apply prepare_home_change in Hp as [->|[-> [c Hc]]].
  - rewrite !return_data_HOME by assumption. auto.
  - rewrite !return_data_HOME by discriminate. split; [now right|].
    intros Hno. exfalso. apply (Hno c), elem_of_app. now left.
Qed.

Lemma partition_home_entry_witness :
  (({[ "EFI" := Some "/dev/sda1"; "ROOT" := Some "/dev/sda2";
       "HOME" := Some "/dev/sdb1" ]} : gmap string path) !! "HOME"
   = Some (Some "/dev/sdb1")
   ∨ ({[ "EFI" := Some "/dev/sda1"; "ROOT" := Some "/dev/sda2";
         "HOME" := Some "/dev/sdb1" ]} : gmap string path) !! "HOME"
     = Some None)
  ∧ ((∀ c, CheckCall c
           ∉ [MakeEfi (NInt 0) (NInt 200);
              MakeRoot (NInt 201) (NInt 64000) "ext4"]) →
     ({[ "EFI" := Some "/dev/sda1"; "ROOT" := Some "/dev/sda2";
         "HOME" := Some "/dev/sdb1" ]} : gmap string path) !! "HOME"
     = Some (Some "/dev/sdb1")).
Proof.
  apply (partition_home_entry Examples.bare_64GB "/dev/sda" true
           (Some "/dev/sdb1") Examples.no_raid).
  - vm_compute. reflexivity.
  - discriminate.
Defined.

(** ** __make_root__ *)



(** X16: on a device whose size in megabytes is a finite number, the
    boundary "0%" resolves to megabyte 0 exactly, so a root asked for from
    "0%" (as on every BIOS layout) starts at 0. *)
Theorem zero_percent_is_zero W end_ fs t :
  finite (sectors_to_size (dev_length W) (dev_sectorSize W)) →
  percent_of (sectors_to_size (dev_length W) (dev_sectorSize W)) 0 = Some 0
  ∧ __make_root__ W (BStr "0%") (BNum end_) fs t
    = (Ret (Some (new_part_path W (t ++ [MakeRoot (NInt 0) end_ fs]))),
       t ++ [MakeRoot (NInt 0) end_ fs]).
Proof.
  intros Hfin.
  assert (Hz : percent_of (sectors_to_size (dev_length W) (dev_sectorSize W))
                 0 = Some 0).
  { unfold percent_of, trunc. rewrite mul_spec.
    change (Prim2SF (truediv 0 100)) with (S754_zero false).
    unfold finite in Hfin.
    destruct (Prim2SF (sectors_to_size (dev_length W) (dev_sectorSize W)));
      try contradiction; reflexivity. }
  split; [exact Hz|]. unfold __make_root__.
  rewrite bind_unfold, (resolve_percent _ "0%" 0 0) by easy.
  now rewrite bind_unfold, resolve_number.
Qed.

Lemma zero_percent_is_zero_witness :
  percent_of
    (sectors_to_size (dev_length Examples.bare_64GB)
       (dev_sectorSize Examples.bare_64GB)) 0 = Some 0
  ∧ __make_root__ Examples.bare_64GB (BStr "0%") (BNum (NInt 64000)) "ext4" []
    = (Ret (Some (new_part_path Examples.bare_64GB
                    ([] ++ [MakeRoot (NInt 0) (NInt 64000) "ext4"]))),
       [] ++ [MakeRoot (NInt 0) (NInt 64000) "ext4"]).
Proof.
  apply zero_percent_is_zero. vm_compute. exact I.
Defined.

(** ** Which free region is chosen *)

Section Choice.

Variable W : World.

Lemma sizes_of_other_keys back (acc : gmap Z Geometry) k :
  (∀ r, r ∈ back → g_length r ≠ k) →
  foldl (λ sizes each, <[g_length each := each]> sizes) acc back !! k
  = acc !! k.
Proof.
  revert acc. induction back as [|each rest IH]; intros acc H; simpl;
    [reflexivity|].
  rewrite IH by (intros r Hr; apply H; now apply list_elem_of_further).
  apply lookup_insert_ne, H, list_elem_of_here.
Qed.

Lemma sizes_sorted_lookup data k region :
  (k, region) ∈ sizes_sorted (sizes_of data) ↔ sizes_of data !! k = Some region.
Proof.
  unfold sizes_sorted. rewrite merge_sort_Permutation.
  apply elem_of_map_to_list.
Qed.

(** The regions shorter than one on offer were on offer before it. *)
Lemma shorter_come_first data pre k region post other :
  sizes_sorted (sizes_of data) = pre ++ (k, region) :: post →
  other ∈ data → g_length other < k →
  ∃ kept, (g_length other, kept) ∈ pre.
Proof.
  intros Hl Hin Hlt.
  destruct (sizes_sorted_covers data other Hin) as [kept Hkept].
  exists kept. rewrite Hl in Hkept.
  apply elem_of_app in Hkept as [Hkept|Hkept]; [exact Hkept|].
  exfalso. pose proof (sizes_sorted_ascending (sizes_of data)) as Hs.
  rewrite Hl in Hs. apply StronglySorted_app_1_r in Hs.
  apply StronglySorted_cons in Hs as [Hall _].
  apply elem_of_cons in Hkept as [[= Heq _]|Hkept]; [lia|].
  rewrite Forall_forall in Hall. specialize (Hall _ Hkept).
  unfold key_le in Hall. simpl in Hall. lia.
Qed.

End Choice.

(** X17: the free-space search of the same-device branch either asks for
    nothing, and then every length of a free region is held by a region
    under 200 MB, or settles on one free region of the table that reaches
    200 MB and asks for EFI and root (or root alone, flagged) on it; every
    strictly shorter length of a free region is then held by a region under
    200 MB. *)
Theorem free_space_choice W data efi t r t' :
  (if efi : bool then scan_efi W (sizes_sorted (sizes_of data)) t
   else scan_root W (sizes_sorted (sizes_of data)) t) = (r, t') →
  (t' = t ∧ r = Ret (None, None)
   ∧ ∀ region, region ∈ data →
       ∃ kept, kept ∈ data ∧ g_length kept = g_length region
               ∧ float_ge_Z (getSize W kept) 200 = false)
  ∨ (∃ region,
       region ∈ data
       ∧ float_ge_Z (getSize W region) 200 = true
       ∧ t' = t ++ (if efi then efi_requests W region
                    else root_requests W region)
       ∧ ∀ other, other ∈ data → g_length other < g_length region →
           ∃ kept, kept ∈ data ∧ g_length kept = g_length other
                   ∧ float_ge_Z (getSize W kept) 200 = false).
Proof.
  intros H.
  assert (Hsel :
    (all_small W (sizes_sorted (sizes_of data)) ∧ t' = t
     ∧ r = Ret (None, None))
    ∨ (∃ pre k region post,
         sizes_sorted (sizes_of data) = pre ++ (k, region) :: post
         ∧ all_small W pre
         ∧ float_ge_Z (getSize W region) 200 = true
         ∧ t' = t ++ (if efi then efi_requests W region
                      else root_requests W region))).
  { destruct efi; [apply scan_efi_selects in H|apply scan_root_selects in H];
      exact H. }
  destruct Hsel as [(Hall & -> & ->)|(pre & k & region & post & Hl & Hall & Hbig & ->)].
  - left. split; [reflexivity|]. split; [reflexivity|].
    intros region Hin.
    destruct (sizes_sorted_covers data region Hin) as [kept Hkept].
    destruct (sizes_sorted_item _ _ _ Hkept) as [Hk Hlen].
    exists kept. split; [exact Hk|]. split; [exact Hlen|].
    unfold all_small in Hall. rewrite Forall_forall in Hall.
    exact (Hall _ Hkept).
  - right. exists region.
    assert (Hitem : (k, region) ∈ sizes_sorted (sizes_of data)).
    { rewrite Hl. apply elem_of_app. right. apply list_elem_of_here. }
    destruct (sizes_sorted_item _ _ _ Hitem) as [Hin Hlen].
    split; [exact Hin|]. split; [exact Hbig|]. split; [reflexivity|].
    intros other Hother Hlt. rewrite Hlen in Hlt.
    destruct (shorter_come_first data pre k region post other Hl Hother Hlt)
      as [kept Hkept].
    assert (Hk : (g_length other, kept) ∈ sizes_sorted (sizes_of data)).
    { rewrite Hl. apply elem_of_app. now left. }
    destruct (sizes_sorted_item _ _ _ Hk) as [Hkin Hklen].
    exists kept. split; [exact Hkin|]. split; [exact Hklen|].
    unfold all_small in Hall. rewrite Forall_forall in Hall.
    exact (Hall _ Hkept).
Qed.

Lemma free_space_choice_witness :
  ([MakeRoot (NInt 2048) (NInt 4002047) "ext4"; RootBoot] = []
   ∧ (Ret (Some "/dev/sda1", None) : outcome (path * path))
     = Ret (None, None)
   ∧ ∀ region, region ∈ [Examples.gap] →
       ∃ kept, kept ∈ [Examples.gap] ∧ g_length kept = g_length region
               ∧ float_ge_Z
                   (getSize (Examples.used_40TB [Examples.gap]) kept) 200
                 = false)
  ∨ (∃ region,
       region ∈ [Examples.gap]
       ∧ float_ge_Z (getSize (Examples.used_40TB [Examples.gap]) region) 200
         = true
       ∧ [MakeRoot (NInt 2048) (NInt 4002047) "ext4"; RootBoot]
         = [] ++ root_requests (Examples.used_40TB [Examples.gap]) region
       ∧ ∀ other, other ∈ [Examples.gap] →
           g_length other < g_length region →
           ∃ kept, kept ∈ [Examples.gap] ∧ g_length kept = g_length other
                   ∧ float_ge_Z
                       (getSize (Examples.used_40TB [Examples.gap]) kept) 200
                     = false).
Proof.
  apply (free_space_choice (Examples.used_40TB [Examples.gap])
           [Examples.gap] false []
           (Ret (Some "/dev/sda1", None))
           [MakeRoot (NInt 2048) (NInt 4002047) "ext4"; RootBoot]).
  vm_compute. reflexivity.
Defined.

(** X18: of the free regions of one length only the last one listed is on
    offer: the dictionary keyed by length keeps it and forgets the earlier
    ones. *)
Theorem last_of_equal_length_wins front region back :
  (∀ r, r ∈ back → g_length r ≠ g_length region) →
  sizes_of (front ++ region :: back) !! g_length region = Some region
  ∧ ∀ k other,
      (k, other) ∈ sizes_sorted (sizes_of (front ++ region :: back)) →
      g_length other = g_length region → other = region.
Proof.
  intros Hback.
  assert (Hlook : sizes_of (front ++ region :: back) !! g_length region
                  = Some region).
  { unfold sizes_of. rewrite foldl_app. simpl.
    rewrite sizes_of_other_keys by assumption. apply lookup_insert_eq. }
  split; [exact Hlook|]. intros k other Hin Hlen.
  destruct (sizes_sorted_item _ _ _ Hin) as [_ Hk].
  apply sizes_sorted_lookup in Hin. rewrite <- Hk, Hlen, Hlook in Hin.
  now injection Hin.
Qed.

Lemma last_of_equal_length_wins_witness :
  sizes_of ([ {| g_start := 34; g_length := 2014; g_end := 2047 |} ]
            ++ {| g_start := 9000; g_length := 2014; g_end := 11013 |} :: [])
    !! 2014
  = Some {| g_start := 9000; g_length := 2014; g_end := 11013 |}.
Proof.
  refine (proj1 (last_of_equal_length_wins
                   [ {| g_start := 34; g_length := 2014; g_end := 2047 |} ]
                   {| g_start := 9000; g_length := 2014; g_end := 11013 |}
                   [] _)).
  intros r Hr. now apply not_elem_of_nil in Hr.
Defined.

(** ** How much a run asks for *)

Lemma within_ret {A} n (a : A) : within n (ret a).
Proof.
  intros t r t' [= <- <-]. exists []. rewrite app_nil_r. simpl. split; [auto|lia].
Qed.

Lemma within_raise {A} n e : within n (@raise A e).
Proof.
  intros t r t' [= <- <-]. exists []. rewrite app_nil_r. simpl. split; [auto|lia].
Qed.

Lemma within_history n : within n history.
Proof.
  intros t r t' [= <- <-]. exists []. rewrite app_nil_r. simpl. split; [auto|lia].
Qed.

Lemma within_emit n e : (1 ≤ n)%nat → within n (emit e).
Proof.
  intros Hn t r t' [= <- <-]. exists [e]. split; [reflexivity|exact Hn].
Qed.

Lemma within_bind {A B} a b n (m : M A) (k : A → M B) :
  within a m → (∀ x, within b (k x)) → (a + b ≤ n)%nat → within n (bind m k).
Proof.
  intros Hm Hk Hn t r t' H. rewrite bind_unfold in H.
  destruct (m t) as [[x|e] t1] eqn:E; apply Hm in E as (ext1 & -> & L1).
  - apply Hk in H as (ext2 & -> & L2). exists (ext1 ++ ext2).
    split; [now rewrite app_assoc|]. rewrite length_app. lia.
  - injection H as <- <-. exists ext1. split; [reflexivity|lia].
Qed.

Section Amount.

Variable W : World.

Lemma within_make_root n start end_ fs :
  (1 ≤ n)%nat → within n (__make_root__ W start end_ fs).
Proof.
  intros Hn t r t' H.
  destruct (make_root_cases W start end_ fs t) as [[e E]|(s & e & E)];
    rewrite E in H; injection H as <- <-.
  - exists []. rewrite app_nil_r. simpl. split; [auto|lia].
  - eexists. split; [reflexivity|exact Hn].
Qed.

Lemma within_make_efi n start end_ :
  (1 ≤ n)%nat → within n (__make_efi__ W start end_).
Proof.
  intros Hn. unfold __make_efi__.
  apply (within_bind 1 0); [now apply within_emit| |lia].
  intros _. apply (within_bind 0 0); [apply within_history| |lia].
  intros h. apply within_ret.
Qed.

Lemma within_get_min_root_size swap ram unit bytes :
  within 0 (get_min_root_size W swap ram unit bytes).
Proof.
  unfold get_min_root_size. apply (within_bind 0 0); [| |lia].
  - destruct swap; [|apply within_ret].
    destruct (_ && _); [apply within_raise|]. cbv zeta.
    destruct (round _); [apply within_ret|apply within_raise].
  - intros z. destruct (negb bytes); apply within_ret.
Qed.

Lemma within_whole_device efi root_end :
  within 2 (whole_device W efi root_end).
Proof.
  unfold whole_device, __make_root_boot__. destruct efi.
  - apply (within_bind 1 1); [now apply within_make_efi| |lia].
    intros p1. apply (within_bind 1 0); [now apply within_make_root| |lia].
    intros p2. apply within_ret.
  - apply (within_bind 1 1); [now apply within_make_root| |lia].
    intros p1. apply (within_bind 1 0); [now apply within_emit| |lia].
    intros _. apply within_ret.
Qed.

Lemma within_scan_efi l : within 2 (scan_efi W l).
Proof.
  induction l as [|[k region] rest IH]; simpl; [apply within_ret|].
  destruct (float_ge_Z _ _); [|exact IH].
  apply (within_bind 1 1); [now apply within_make_efi| |lia].
  intros p1. apply (within_bind 1 0); [now apply within_make_root| |lia].
  intros p2. apply within_ret.
Qed.

Lemma within_scan_root l : within 2 (scan_root W l).
Proof.
  induction l as [|[k region] rest IH]; simpl; [apply within_ret|].
  destruct (float_ge_Z _ _); [|exact IH]. unfold __make_root_boot__.
  apply (within_bind 1 1); [now apply within_make_root| |lia].
  intros p1. apply (within_bind 1 0); [now apply within_emit| |lia].
  intros _. apply within_ret.
Qed.

Lemma within_layout root efi home : within 3 (layout W root efi home).
Proof.
  unfold layout, __make_home__, __make_root_boot__.
  assert (Hwhole : ∀ root_end h,
            within 3
              (made <~ whole_device W efi root_end ;;
               let '(part1, part2) := made in
               ret (__generate_return_data__ home efi part1 part2 h))).
  { intros root_end h.
    apply (within_bind 2 0); [apply within_whole_device| |lia].
    intros [p1 p2]. apply within_ret. }
  destruct (float_le_Z _ _); [apply Hwhole|].
  destruct (bool_decide _).
  { apply (within_bind 0 3); [| |lia].
    - destruct (float_ge_Z _ _); [|apply within_get_min_root_size].
      destruct (trunc _); [apply within_ret|apply within_raise].
    - intros root_end. apply (within_bind 3 0); [| |lia].
      + destruct efi.
        * apply (within_bind 1 2); [now apply within_make_efi| |lia].
          intros p1.
          apply (within_bind 1 1); [now apply within_make_root| |lia].
          intros p2.
          apply (within_bind 1 0); [now apply within_make_root| |lia].
          intros p3. apply within_ret.
        * apply (within_bind 1 2); [now apply within_make_root| |lia].
          intros p1. apply (within_bind 1 1); [now apply within_emit| |lia].
          intros _.
          apply (within_bind 1 0); [now apply within_make_root| |lia].
          intros p2. apply within_ret.
      + intros [[p1 p2] p3]. apply within_ret. }
  destruct (is_null home); [apply Hwhole|].
  destruct (String.eqb _ _); [|apply Hwhole].
  apply (within_bind 0 3); [apply within_history| |lia].
  intros h. apply (within_bind 2 0); [| |lia].
  - destruct efi; [apply within_scan_efi|apply within_scan_root].
  - intros [p1 p2]. apply within_ret.
Qed.

Lemma within_make_raid_array disks raid_type force :
  within 1 (make_raid_array W disks raid_type force).
Proof.
  intros t r t' H. rewrite make_raid_array_eq in H.
  repeat match type of H with
         | context [match ?x with _ => _ end] => destruct x
         end;
    cbv zeta in H; injection H as <- <-;
    first [ exists []; rewrite app_nil_r; simpl; split; [reflexivity|lia]
          | eexists; split; [reflexivity|simpl; lia] ].
Qed.

Lemma within_prepare root home ready : within 3 (prepare W root home ready).
Proof.
  unfold prepare, clobber_disk.
  destruct (null_or_make home && is_none (raid_type ready)).
  { apply (within_bind 1 0); [now apply within_emit| |lia].
    intros _. apply within_ret. }
  destruct (negb (is_none (raid_type ready))); [|apply within_ret].
  apply (within_bind 1 2); [now apply within_emit| |lia].
  intros _. cbv zeta.
  apply (within_bind 1 1); [apply within_make_raid_array| |lia].
  intros built. destruct (negb built); [|apply within_ret].
  apply (within_bind 1 0); [apply within_make_raid_array| |lia].
  intros forced. destruct (negb forced); apply within_ret.
Qed.

End Amount.

(** X19: a run of the planner asks for little: when it stops, by returning
    or by raising, the log is at most a clobber and two array commands
    followed by at most three requests for partitions and boot flags, so
    never more than an EFI, a root and a home partition. *)
Theorem partition_asks_for_at_most_three W root efi home raid_array r t :
  run (partition W root efi home raid_array) = (r, t) →
  ∃ before requests,
    t = before ++ requests
    ∧ Forall (λ e, e = Clobber root ∨ command e) before
    ∧ (length before ≤ 3)%nat
    ∧ Forall (fits efi) requests
    ∧ (length requests ≤ 3)%nat.
Proof.
  unfold run, partition. intros H. rewrite bind_unfold in H.
  destruct (normalise raid_array []) as [[ready|e] t0] eqn:Hn;
    pose proof (normalise_quiet _ _ _ _ Hn) as ->.
  2: { injection H as <- <-. exists [], [].
       split; [reflexivity|]. split; [constructor|].
       split; [simpl; lia|]. split; [constructor|simpl; lia]. }
  rewrite bind_unfold in H.
  assert (Hpre : ∀ r1 t1, prepare W root home ready [] = (r1, t1) →
                   Forall (λ e, e = Clobber root ∨ command e) t1
                   ∧ (length t1 ≤ 3)%nat).
  { intros r1 t1 Hp. split.
    - apply prepare_log in Hp as [(_ & _ & ->)|(_ & cmds & -> & Fc)];
        [constructor|].
      constructor; [auto|]. eapply Forall_impl; [exact Fc|]. auto.
    - apply within_prepare in Hp as (ext & -> & L). exact L. }
  destruct (prepare W root home ready []) as [[home'|e] t1] eqn:Hp;
    destruct (Hpre _ _ eq_refl) as [Fpre Lpre].
  - pose proof H as Hl. apply logs_layout_fits in Hl as (ext & -> & F).
    apply within_layout in H as (ext' & E & L).
    apply app_inv_head in E as <-.
    exists t1, ext. auto.
  - injection H as <- <-. exists t1, []. rewrite app_nil_r.
    split; [reflexivity|]. split; [exact Fpre|]. split; [exact Lpre|].
    split; [constructor|simpl; lia].
Qed.

Lemma partition_asks_for_at_most_three_witness :
  ∃ before requests,
    [Clobber "/dev/sda"; MakeRoot (NInt 0) (NInt 64000) "ext4"; RootBoot]
    = before ++ requests
    ∧ Forall (λ e, e = Clobber "/dev/sda" ∨ command e) before
    ∧ (length before ≤ 3)%nat
    ∧ Forall (fits false) requests
    ∧ (length requests ≤ 3)%nat.
Proof.
  apply (partition_asks_for_at_most_three Examples.bare_64GB "/dev/sda"
           false None Examples.no_raid
           (Ret {[ "EFI" := None; "ROOT" := Some "/dev/sda1";
                   "HOME" := None ]})).
  vm_compute. reflexivity.
Defined.

(** X20: a home partition on the destination device [/dev/sdX] whose path
    has two or more characters after the device name (partition 10 and up)
    is taken to lie on another device: past the limiter the planner does
    not search the free space but lays EFI and root at their configured
    boundaries, as for a home partition elsewhere. *)
Theorem two_digit_home_is_elsewhere W x s efi t :
  PyStr.contains "nvme" ("/dev/sd" +:+ String x s) = false →
  (2 ≤ String.length s)%nat →
  float_le_Z (device_size W) LIMITER = false →
  layout W ("/dev/sd" +:+ String x "") efi (Some ("/dev/sd" +:+ String x s)) t
  = bind (whole_device W efi (ROOT_END (config W)))
      (λ made,
         let '(part1, part2) := made in
         ret (__generate_return_data__ (Some ("/dev/sd" +:+ String x s)) efi
                part1 part2 (Some ("/dev/sd" +:+ String x s)))) t.
Proof.
  intros Hsd Hlen Hbig. unfold layout. rewrite Hbig.
  rewrite bool_decide_eq_false_2 by (intros [= H]; discriminate H).
  change (is_null (Some ("/dev/sd" +:+ String x s))) with false. cbv iota.
  change (default "" (Some ("/dev/sd" +:+ String x s)))
    with ("/dev/sd" +:+ String x s).
  destruct (sd_device_cut x s Hsd) as [Hdev Hiff].
  destruct (String.eqb_spec ("/dev/sd" +:+ String x "")
              (device_of ("/dev/sd" +:+ String x s))) as [E|_];
    [|reflexivity].
  exfalso. rewrite Hdev in E. symmetry in E. apply Hiff in E. lia.
Qed.

Lemma two_digit_home_is_elsewhere_witness :
  layout (Examples.used_40TB [Examples.gap]) ("/dev/sd" +:+ String "a" "")
    true (Some ("/dev/sd" +:+ String "a" "10")) []
  = bind (whole_device (Examples.used_40TB [Examples.gap]) true
            (ROOT_END (config (Examples.used_40TB [Examples.gap]))))
      (λ made,
         let '(part1, part2) := made in
         ret (__generate_return_data__ (Some ("/dev/sd" +:+ String "a" "10"))
                true part1 part2 (Some ("/dev/sd" +:+ String "a" "10")))) [].
Proof.
  apply two_digit_home_is_elsewhere.
  - reflexivity.
  - simpl. lia.
  - vm_compute. reflexivity.
Defined.
